(** * doorman: tagging and filtering of authorized_keys entries

    A shallow embedding of [doorman.go].  Go strings and byte slices are
    sequences of bytes; the functions of Go's [strings] package that the
    program calls are modelled on byte lists, the program's own functions
    are transcribed statement by statement on top of them. *)

From Stdlib Require Import Strings.String Strings.Byte NArith ZArith List.
From stdpp Require Import base tactics option list gmap strings.

Set Default Proof Using "Type".
Open Scope list_scope.

(** ** Bytes *)

Abbreviation bytes := (list byte).

(** A string literal of the source, as its bytes. *)
Definition bs (s : string) : bytes := list_byte_of_string s.

#[global] Instance byte_eq_decision : EqDecision byte := Byte.byte_eq_dec.

(** The newline byte, the separator of every [Split] and [Join] of the program. *)
Definition nl : byte := x0a.

(** ** The [utf8] package *)

Module utf8.

(** [utf8.RuneStart(b)]: [b&0xC0 != 0x80], the byte is not a continuation
    byte of a multi-byte rune. *)
Definition RuneStart (b : byte) : bool :=
  negb (N.land (Byte.to_N b) 192 =? 128)%N.

End utf8.

(** ** The [strings] package *)

Module strings.

(** [strings.Split(s, "\n")]: the pieces of [s] between newlines; one more
    piece than there are newlines, so the empty string gives one empty piece. *)
Fixpoint Split (s : bytes) : list bytes :=
  match s with
  | [] => [[]]
  | c :: t =>
      if decide (c = nl) then [] :: Split t
      else match Split t with
           | piece :: rest => (c :: piece) :: rest
           | [] => [[c]]
           end
  end.

(** [strings.Join(elems, "\n")]. *)
Fixpoint Join (elems : list bytes) : bytes :=
  match elems with
  | [] => []
  | [e] => e
  | e :: rest => e ++ nl :: Join rest
  end.

(** [strings.HasSuffix]:
    [len(s) >= len(suffix) && s[len(s)-len(suffix):] == suffix]. *)
Definition HasSuffix (s suffix : bytes) : bool :=
  bool_decide (length suffix ≤ length s)
  && bool_decide (drop (length s - length suffix) s = suffix).

(** [strings.HasPrefix], returning what follows the prefix. *)
Fixpoint stripPrefix (prefix s : bytes) : option bytes :=
  match prefix, s with
  | [], _ => Some s
  | p :: prefix', c :: s' => if decide (p = c) then stripPrefix prefix' s' else None
  | _ :: _, [] => None
  end.

(** The UTF-8 encodings of the runes for which [unicode.IsSpace] holds:
    the six ASCII ones of the [asciiSpace] table, U+0085, U+00A0, U+1680,
    U+2000 to U+200A, U+2028, U+2029, U+202F, U+205F and U+3000. *)
Definition spaceRunes : list bytes :=
  [ [x09]; [x0a]; [x0b]; [x0c]; [x0d]; [x20];
    [xc2; x85]; [xc2; xa0];
    [xe1; x9a; x80];
    [xe2; x80; x80]; [xe2; x80; x81]; [xe2; x80; x82]; [xe2; x80; x83];
    [xe2; x80; x84]; [xe2; x80; x85]; [xe2; x80; x86]; [xe2; x80; x87];
    [xe2; x80; x88]; [xe2; x80; x89]; [xe2; x80; x8a];
    [xe2; x80; xa8]; [xe2; x80; xa9]; [xe2; x80; xaf];
    [xe2; x81; x9f];
    [xe3; x80; x80] ].

(** The first rune of [s] is white space: what follows it.  Decoding a rune
    at the head of [s] gives a white-space rune exactly when [s] starts with
    one of the encodings above. *)
Fixpoint stripOneOf (runes : list bytes) (s : bytes) : option bytes :=
  match runes with
  | [] => None
  | r :: runes' =>
      match stripPrefix r s with
      | Some rest => Some rest
      | None => stripOneOf runes' s
      end
  end.

Definition stripSpace (s : bytes) : option bytes := stripOneOf spaceRunes s.

(** The last rune of [s] is white space: what precedes it.  Decoding the
    last rune gives a white-space rune exactly when [s] ends with one of
    the encodings above. *)
Fixpoint stripLastOneOf (runes : list bytes) (s : bytes) : option bytes :=
  match runes with
  | [] => None
  | r :: runes' =>
      if HasSuffix s r then Some (take (length s - length r) s)
      else stripLastOneOf runes' s
  end.

Definition stripLastSpace (s : bytes) : option bytes := stripLastOneOf spaceRunes s.

(** [strings.TrimLeftFunc(s, unicode.IsSpace)] with its loop counted by the
    length of [s]: every round drops one leading white-space rune. *)
Fixpoint trimLeftLoop (rounds : nat) (s : bytes) : bytes :=
  match rounds with
  | O => s
  | S rounds' =>
      match stripSpace s with
      | Some rest => trimLeftLoop rounds' rest
      | None => s
      end
  end.

Definition TrimLeft (s : bytes) : bytes := trimLeftLoop (length s) s.

(** [strings.TrimRightFunc(s, unicode.IsSpace)], likewise. *)
Fixpoint trimRightLoop (rounds : nat) (s : bytes) : bytes :=
  match rounds with
  | O => s
  | S rounds' =>
      match stripLastSpace s with
      | Some rest => trimRightLoop rounds' rest
      | None => s
      end
  end.

Definition TrimRight (s : bytes) : bytes := trimRightLoop (length s) s.

(** [strings.TrimSpace]: leading and trailing white space removed.  The
    ASCII fast path of the Go function computes the same slice. *)
Definition TrimSpace (s : bytes) : bytes := TrimRight (TrimLeft s).

(** ['A' <= c && c <= 'Z'], then [c += 'a' - 'A']. *)
Definition lowerByte (c : byte) : byte :=
  let n := Byte.to_N c in
  if (65 <=? n)%N && (n <=? 90)%N
  then default c (Byte.of_N (n + 32))
  else c.

(** [strings.ToLower].  On ASCII input this is the Go function.  On other
    input Go maps each rune through the Unicode case tables, which sends
    no rune outside ASCII to one of the letters y, e, s; the bytes of such
    runes are kept here, so that the comparison of the result with the
    word yes, the only use the program makes of it, is the same. *)
Definition ToLower (s : bytes) : bytes := map lowerByte s.

End strings.

(** ** Tagger / matcher *)

(** The body of the [for _, line := range lines] loop of [appendUsernameToKeys]. *)
Definition appendStep (username : bytes) (result : list bytes) (line : bytes) : list bytes :=
  let line := strings.TrimSpace line in
  if bool_decide (0 < length line) then result ++ [line ++ bs " " ++ username] else result.

Definition appendUsernameToKeys (keys username : bytes) : bytes :=
  let lines := strings.Split (strings.TrimSpace keys) in
  let result := fold_left (appendStep username) lines [] in
  strings.Join result.

(** The body of the [for _, line := range lines] loop of [removeKeysByUsername]. *)
Definition removeStep (suffix : bytes) (newLines : list bytes) (line : bytes) : list bytes :=
  if negb (strings.HasSuffix line suffix) then newLines ++ [line] else newLines.

Definition removeKeysByUsername (keys username : bytes) : bytes :=
  let lines := strings.Split keys in
  let suffix := bs " " ++ username in
  let newLines := fold_left (removeStep suffix) lines [] in
  strings.Join newLines.

(** ** Errors *)

Inductive Errno := ENOENT | EEXIST | ENOTDIR | EISDIR | EACCES | EIO | ENOSPC.

(** The [error] values of the program: those of its collaborators and those
    it builds with [fmt.Errorf]. *)
Inductive error :=
| errSyscall (e : Errno)              (* an error of the [os] package *)
| errEOF                              (* [io.EOF] *)
| errExternal (msg : bytes)           (* user lookup, transport or stream failure *)
| errHTTPStatus (code : Z)            (* "failed to fetch keys: HTTP %d" *)
| errorf (msg : bytes)                (* [fmt.Errorf] of a formatted message *)
| errWrap (msg : bytes) (cause : error). (* [fmt.Errorf("msg: %w", cause)] *)

Inductive Result (A : Type) :=
| Ok (a : A)
| Err (e : error).
Arguments Ok {A} a.
Arguments Err {A} e.

(** ** The world the program runs in *)

(** A path, as its components; [filepath.Join] appends components. *)
Abbreviation path := (list string).

Inductive node :=
| Dir (mode : Z)
| File (mode : Z) (content : bytes).

(** The operating-system calls behind the [os] functions the program uses. *)
Inductive Syscall := SysStat | SysMkdir | SysOpen | SysFstat | SysWrite | SysRead.

(** The buffered reader over standard input: the bytes still to come, and
    what every read returns once they are consumed ([io.EOF] at the end of
    the input, another error for a failing stream). *)
Record Reader := mkReader {
  pending : bytes;
  closing : error
}.

Record Response := mkResponse {
  StatusCode : Z;
  Body : Result bytes  (* what [io.ReadAll(response.Body)] returns *)
}.

Record World := mkWorld {
  files : gmap path node;
  (** failures imposed by the environment on a call (permissions, a full
      disk, a failing device); [None] lets the call proceed *)
  faults : Syscall → path → option Errno;
  (** [userCurrent()]: the home directory, or an error *)
  userCurrent : Result path;
  (** [httpGet(url)] *)
  httpGet : bytes → Result Response;
  stdinReader : Reader;
  stdout : bytes
}.

Definition setFiles (fs : gmap path node) (w : World) : World :=
  mkWorld fs (faults w) (userCurrent w) (httpGet w) (stdinReader w) (stdout w).
Definition setStdin (r : Reader) (w : World) : World :=
  mkWorld (files w) (faults w) (userCurrent w) (httpGet w) r (stdout w).
Definition setStdout (out : bytes) (w : World) : World :=
  mkWorld (files w) (faults w) (userCurrent w) (httpGet w) (stdinReader w) out.

(** ** Computations: a state and error monad over the world *)

Definition M (A : Type) : Type := World → Result A * World.

Definition ret {A} (a : A) : M A := λ w, (Ok a, w).
Definition fail {A} (e : error) : M A := λ w, (Err e, w).
Definition bind {A B} (m : M A) (k : A → M B) : M B :=
  λ w, match m w with
       | (Ok a, w') => k a w'
       | (Err e, w') => (Err e, w')
       end.
(** Run [m] and hand its outcome to the caller, as Go's [v, err := f()]. *)
Definition attempt {A} (m : M A) : M (Result A) :=
  λ w, let '(r, w') := m w in (Ok r, w').

#[global] Instance M_ret : MRet M := @ret.
#[global] Instance M_bind : MBind M := λ A B k m, bind m k.

(** [fmt.Fprint(stdout, s)]; write errors are ignored by the program. *)
Definition Fprint (s : bytes) : M unit :=
  λ w, (Ok tt, setStdout (stdout w ++ s) w).
Definition Fprintln (s : bytes) : M unit := Fprint (s ++ [nl]).

(** ** The [os] package *)

Module os.

Definition faulty {A} (call : Syscall) (p : path) (m : M A) : M A :=
  λ w, match faults w call p with
       | Some e => (Err (errSyscall e), w)
       | None => m w
       end.

(** [os.IsNotExist(err)] *)
Definition IsNotExist (err : error) : bool :=
  match err with
  | errSyscall ENOENT => true
  | _ => false
  end.

Definition Stat (p : path) : M node :=
  faulty SysStat p (λ w,
    match files w !! p with
    | Some n => (Ok n, w)
    | None => (Err (errSyscall ENOENT), w)
    end).

(** The directory a new entry [p] is created in must exist. *)
Definition parentDir (fs : gmap path node) (p : path) : Result unit :=
  match removelast p with
  | [] => Ok tt
  | d => match fs !! d with
         | Some (Dir _) => Ok tt
         | Some (File _ _) => Err (errSyscall ENOTDIR)
         | None => Err (errSyscall ENOENT)
         end
  end.

Definition Mkdir (p : path) (perm : Z) : M unit :=
  faulty SysMkdir p (λ w,
    match files w !! p with
    | Some _ => (Err (errSyscall EEXIST), w)
    | None =>
        match parentDir (files w) p with
        | Ok _ => (Ok tt, setFiles (<[p := Dir perm]> (files w)) w)
        | Err e => (Err e, w)
        end
    end).

(** [os.OpenFile(p, os.O_APPEND|os.O_WRONLY, perm)]: no [O_CREATE], so the
    file must exist and [perm] is not used.  The handle is the path. *)
Definition OpenFileAppend (p : path) : M path :=
  faulty SysOpen p (λ w,
    match files w !! p with
    | Some (File _ _) => (Ok p, w)
    | Some (Dir _) => (Err (errSyscall EISDIR), w)
    | None => (Err (errSyscall ENOENT), w)
    end).

(** [file.Stat()], of which the program reads [Size()]. *)
Definition FileSize (file : path) : M nat :=
  faulty SysFstat file (λ w,
    match files w !! file with
    | Some (File _ content) => (Ok (length content), w)
    | _ => (Err (errSyscall EIO), w)
    end).

(** [file.Write(data)] and [file.WriteString] on a handle opened with
    [O_APPEND]: the data goes to the end of the file. *)
Definition FileWrite (file : path) (data : bytes) : M unit :=
  faulty SysWrite file (λ w,
    match files w !! file with
    | Some (File mode content) =>
        (Ok tt, setFiles (<[file := File mode (content ++ data)]> (files w)) w)
    | _ => (Err (errSyscall EIO), w)
    end).

(** [os.WriteFile(p, data, perm)]: open with [O_WRONLY|O_CREATE|O_TRUNC],
    which empties an existing file (keeping its mode) or creates one with
    mode [perm]; then write [data]. *)
Definition WriteFile (p : path) (data : bytes) (perm : Z) : M unit :=
  faulty SysOpen p (λ w,
    match files w !! p with
    | Some (Dir _) => (Err (errSyscall EISDIR), w)
    | Some (File mode _) => (Ok tt, setFiles (<[p := File mode []]> (files w)) w)
    | None =>
        match parentDir (files w) p with
        | Ok _ => (Ok tt, setFiles (<[p := File perm []]> (files w)) w)
        | Err e => (Err e, w)
        end
    end) ;;
  FileWrite p data.

Definition ReadFile (p : path) : M bytes :=
  faulty SysOpen p (faulty SysRead p (λ w,
    match files w !! p with
    | Some (File _ content) => (Ok content, w)
    | Some (Dir _) => (Err (errSyscall EISDIR), w)
    | None => (Err (errSyscall ENOENT), w)
    end)).

End os.

(** Octal file modes, as Go writes them: [0600] is [octal 6 0 0]. *)
Definition octal (owner group other : Z) : Z := (owner * 64 + group * 8 + other)%Z.

(** ** [bufio.Reader] *)

(** The bytes up to and including the first newline, and the rest. *)
Fixpoint cutLine (s : bytes) : option (bytes * bytes) :=
  match s with
  | [] => None
  | c :: t =>
      if decide (c = nl) then Some ([c], t)
      else match cutLine t with
           | Some (line, rest) => Some (c :: line, rest)
           | None => None
           end
  end.

(** [reader.ReadString('\n')]: the line with its newline; when the input
    ends or fails before a newline, the bytes read so far and the error. *)
Definition ReadString (r : Reader) : bytes * option error * Reader :=
  match cutLine (pending r) with
  | Some (line, rest) => (line, None, mkReader rest (closing r))
  | None => (pending r, Some (closing r), mkReader [] (closing r))
  end.

(** ** Reconciler *)

Definition getAuthorizedKeysPath : M path :=
  λ w, match userCurrent w with
       | Err e => (Err e, w)
       | Ok HomeDir => (Ok (HomeDir ++ [".ssh"; "authorized_keys"]%string), w)
       end.

Definition ensureSSHDir : M unit :=
  λ w, match userCurrent w with
       | Err e => (Err e, w)
       | Ok HomeDir =>
           let sshDir := HomeDir ++ [".ssh"%string] in
           (st ← attempt (os.Stat sshDir);
            match st with
            | Err err => if os.IsNotExist err then os.Mkdir sshDir (octal 7 0 0) else mret tt
            | Ok _ => mret tt
            end) w
       end.

(** Lines 121 to 127 of [promptConfirmation]: read a line and decide. *)
Definition readAnswer (r : Reader) : Result bool * Reader :=
  let '(line, err, r') := ReadString r in
  match err with
  | Some errEOF | None =>
      let response := strings.ToLower (strings.TrimSpace line) in
      (Ok (bool_decide (response = bs "yes")), r')
  | Some e => (Err e, r')
  end.

Definition promptConfirmation (prompt : bytes) : M bool :=
  Fprint prompt ;;
  ((λ w, let '(res, r') := readAnswer (stdinReader w) in (res, setStdin r' w)) : M bool).

(** [os.Stat] reported that the file is not there. *)
Definition notExist (st : Result node) : bool :=
  match st with
  | Err err => os.IsNotExist err
  | Ok _ => false
  end.

Definition confirmAndAddKeys (keys username : bytes) : M unit :=
  let keysWithUsername := appendUsernameToKeys keys username in
  authorizedKeysPath ← getAuthorizedKeysPath;
  st ← attempt (os.Stat authorizedKeysPath);
  let fileExists := negb (notExist st) in
  goOn ←
    (if fileExists then mret true
     else
       confirmed ← promptConfirmation
         (bs "The authorized_keys file does not exist. Do you want to create it? (yes/no): ");
       if (confirmed : bool) then mret true
       else Fprintln (bs "Operation aborted.") ;; mret false);
  if negb goOn then mret tt
  else
    Fprint (bs "Keys to be added:" ++ nl :: keysWithUsername ++ [nl]) ;;
    confirmed ← promptConfirmation (bs "Do you want to add these keys? (yes/no): ");
    if negb confirmed then Fprintln (bs "Operation aborted.")
    else
      ensureSSHDir ;;
      if fileExists then
        file ← os.OpenFileAppend authorizedKeysPath;
        size ← os.FileSize file;
        (if bool_decide (0 < size) then os.FileWrite file [nl] else mret tt) ;;
        os.FileWrite file keysWithUsername
      else
        os.WriteFile authorizedKeysPath keysWithUsername (octal 6 0 0).

Definition confirmAndRemoveKeys (keys username : bytes) : M unit :=
  let keysWithUsername := appendUsernameToKeys keys username in
  authorizedKeysPath ← getAuthorizedKeysPath;
  st ← attempt (os.Stat authorizedKeysPath);
  if notExist st then Fprintln (bs "The authorized_keys file does not exist.")
  else
    Fprint (bs "Keys to be removed:" ++ nl :: keysWithUsername ++ [nl]) ;;
    confirmed ← promptConfirmation (bs "Do you want to remove these keys? (yes/no): ");
    if negb confirmed then Fprintln (bs "Operation aborted.")
    else
      existingKeys ← os.ReadFile authorizedKeysPath;
      let newKeys := removeKeysByUsername existingKeys username in
      os.WriteFile authorizedKeysPath newKeys (octal 6 0 0).

(** ** Entry point *)

Definition fetchKeys (url : bytes) : M bytes :=
  λ w, match httpGet w url with
       | Err err => (Err err, w)
       | Ok response =>
           if bool_decide (StatusCode response ≠ 200%Z)
           then (Err (errHTTPStatus (StatusCode response)), w)
           else match Body response with
                | Err err => (Err err, w)
                | Ok keys => (Ok keys, w)
                end
       end.

(** [m], with a failure wrapped as [fmt.Errorf("msg: %w", err)]. *)
Definition wrapped {A} (msg : bytes) (m : M A) : M A :=
  λ w, match m w with
       | (Err err, w') => (Err (errWrap msg err), w')
       | ok => ok
       end.

Definition run (args : list bytes) : M unit :=
  match args with
  | [_; action; username] =>
      let keysURL := bs "https://github.com/" ++ username ++ bs ".keys" in
      keys ← wrapped (bs "error fetching keys") (fetchKeys keysURL);
      if bool_decide (length (strings.TrimSpace keys) = 0)
      then fail (errorf (bs "no public keys found for user '" ++ username ++ bs "'"))
      else if bool_decide (action = bs "add") then
        wrapped (bs "error adding keys to authorized_keys") (confirmAndAddKeys keys username) ;;
        Fprintln (bs "Keys added successfully!")
      else if bool_decide (action = bs "remove") then
        wrapped (bs "error removing keys from authorized_keys") (confirmAndRemoveKeys keys username) ;;
        Fprintln (bs "Keys removed successfully!")
      else
        fail (errorf (bs "invalid action '" ++ action ++ bs "'. Please use 'add' or 'remove'"))
  | _ =>
      Fprintln (bs "Usage: doorman add <username>") ;;
      Fprintln (bs "       doorman remove <username>") ;;
      fail (errorf (bs "invalid arguments"))
  end.

(** ** Vocabulary of the specification *)

(** An encoded rune is well formed when it starts with a byte that starts a
    rune and goes on with continuation bytes only. *)
Definition wellFormedRune (r : bytes) : bool :=
  match r with
  | [] => false
  | c :: t => utf8.RuneStart c && forallb (λ b, negb (utf8.RuneStart b)) t
  end.

(** A blob of white space only: a sequence of white-space runes. *)
Definition whitespaceOnly (s : bytes) : Prop :=
  ∃ runes, Forall (λ r, r ∈ strings.spaceRunes) runes ∧ s = concat runes.

(** The lines of a blob, each trimmed, without those that are empty after
    trimming. *)
Definition trimmedLines (s : bytes) : list bytes :=
  filter (λ line, line ≠ []) (map strings.TrimSpace (strings.Split s)).

(** Tagging as the specification words it: split on newlines, trim each
    line, drop the lines that are empty after trimming, append a space and
    the identity to each remaining line, join with newlines. *)
Definition tagged (keys username : bytes) : bytes :=
  strings.Join (map (λ line, line ++ bs " " ++ username) (trimmedLines keys)).

(** The spellings of the word yes, in any mix of cases. *)
Definition yesWords : list bytes :=
  map bs ["yes"; "yeS"; "yEs"; "yES"; "Yes"; "YeS"; "YEs"; "YES"]%string.

(** The confirmation stream fails: it has no full line left and ends with
    an error that is not the end of the input. *)
Definition streamFails (r : Reader) : Prop :=
  (nl ∉ pending r) ∧ closing r ≠ errEOF.

(** [line] is the line the stream has next: the bytes up to and including
    the first newline, or all the bytes left when there is no newline. *)
Definition nextLine (r : Reader) (line : bytes) : Prop :=
  (∃ l rest, line = l ++ [nl] ∧ (nl ∉ l) ∧ pending r = line ++ rest)
  ∨ (line = pending r ∧ nl ∉ line).

(** The credential file and its directory, for a home directory. *)
Definition sshDirOf (home : path) : path := home ++ [".ssh"%string].
Definition authorizedKeysOf (home : path) : path :=
  home ++ [".ssh"; "authorized_keys"]%string.

(** The operator declines a prompt of the add protocol: the prompt to create
    the file, or the prompt to add the keys (after agreeing to create the
    file when it is missing). *)
Definition declinesAdd (w : World) : Prop :=
  ∃ home, userCurrent w = Ok home ∧
    let r := stdinReader w in
    if notExist (fst (os.Stat (authorizedKeysOf home) w))
    then fst (readAnswer r) = Ok false
         ∨ (fst (readAnswer r) = Ok true
            ∧ fst (readAnswer (snd (readAnswer r))) = Ok false)
    else fst (readAnswer r) = Ok false.

(** The operator declines the prompt of the remove protocol, which is asked
    when the file is there. *)
Definition declinesRemove (w : World) : Prop :=
  ∃ home, userCurrent w = Ok home ∧
    notExist (fst (os.Stat (authorizedKeysOf home) w)) = false ∧
    fst (readAnswer (stdinReader w)) = Ok false.

(** The operation was abandoned: what it printed ends with the message. *)
Definition aborted (w' : World) : Prop :=
  (bs "Operation aborted." ++ [nl]) `suffix_of` stdout w'.

(** The files once the directory of the credential file is ensured. *)
Definition ensured (fs : gmap path node) (home : path) : gmap path node :=
  match fs !! sshDirOf home with
  | Some _ => fs
  | None => <[sshDirOf home := Dir (octal 7 0 0)]> fs
  end.

(** The fetch of the identity's keys succeeds with [keys]: the key source
    answers the request for the identity's URL with status 200 and the body
    reads in full. *)
Definition fetched (w : World) (username keys : bytes) : Prop :=
  ∃ response,
    httpGet w (bs "https://github.com/" ++ username ++ bs ".keys") = Ok response
    ∧ StatusCode response = 200%Z
    ∧ Body response = Ok keys.

(** The fetch fails with [cause]: the request fails, or the status is not
    200, or the body cannot be read. *)
Definition fetchFails (w : World) (username : bytes) (cause : error) : Prop :=
  let answer := httpGet w (bs "https://github.com/" ++ username ++ bs ".keys") in
  answer = Err cause
  ∨ (∃ response, answer = Ok response
       ∧ StatusCode response ≠ 200%Z
       ∧ cause = errHTTPStatus (StatusCode response))
  ∨ (∃ response, answer = Ok response
       ∧ StatusCode response = 200%Z
       ∧ Body response = Err cause).

(** A world for examples: the given files and home directory, no failure
    imposed by the environment, the given input followed by its end. *)
Definition quietWorld (fs : gmap path node) (home : path) (input : bytes) : World :=
  mkWorld fs (λ _ _, None) (Ok home) (λ _, Err (errExternal (bs "offline")))
    (mkReader input errEOF) [].

(** * Properties *)

(** ** The source on small inputs *)

(** The tables of [TestAppendUsernameToKeys], [TestRemoveKeysByUsername] and
    [TestPromptConfirmation] of [doorman_test.go]. *)

Example TestAppendUsernameToKeys :
  Forall (λ '(keys, username, expected), appendUsernameToKeys keys username = expected)
    [ (bs "ssh-rsa AAAAB3...", bs "user", bs "ssh-rsa AAAAB3... user");
      (bs "ssh-rsa KEY1..." ++ nl :: bs "ssh-ed25519 KEY2...", bs "user",
       bs "ssh-rsa KEY1... user" ++ nl :: bs "ssh-ed25519 KEY2... user");
      (bs "ssh-rsa KEY..." ++ [nl], bs "user", bs "ssh-rsa KEY... user");
      (bs "ssh-rsa KEY1..." ++ nl :: nl :: bs "ssh-rsa KEY2...", bs "user",
       bs "ssh-rsa KEY1... user" ++ nl :: bs "ssh-rsa KEY2... user");
      (bs "  ssh-rsa KEY...  ", bs "user", bs "ssh-rsa KEY... user");
      ([], bs "user", []);
      (bs "   " ++ nl :: bs "   ", bs "user", []) ].
Proof. repeat (constructor; [vm_compute; reflexivity|]). constructor. Qed.

Example TestRemoveKeysByUsername :
  Forall (λ '(keys, username, expected), removeKeysByUsername keys username = expected)
    [ (bs "ssh-rsa KEY... user", bs "user", []);
      (bs "ssh-rsa KEY1... user" ++ nl :: bs "ssh-rsa KEY2... other", bs "user",
       bs "ssh-rsa KEY2... other");
      (bs "ssh-rsa KEY... other", bs "user", bs "ssh-rsa KEY... other");
      (bs "ssh-rsa KEY... user123", bs "user", bs "ssh-rsa KEY... user123");
      (bs "ssh-rsa KEY... myuser", bs "user", bs "ssh-rsa KEY... myuser");
      ([], bs "user", []);
      (bs "ssh-rsa KEY1... user" ++ nl :: bs "ssh-rsa KEY2... user", bs "user", []) ].
Proof. repeat (constructor; [vm_compute; reflexivity|]). constructor. Qed.

Example TestPromptConfirmation :
  Forall (λ '(input, expected),
            fst (promptConfirmation (bs "Test: ") (quietWorld ∅ [] input)) = Ok expected)
    [ (bs "yes" ++ [nl], true);
      (bs "YES" ++ [nl], true);
      (bs "Yes" ++ [nl], true);
      (bs "  yes  " ++ [nl], true);
      (bs "no" ++ [nl], false);
      ([nl], false);
      (bs "maybe" ++ [nl], false) ].
Proof. repeat (constructor; [vm_compute; reflexivity|]). constructor. Qed.

(** White space is Unicode's: a no-break space before a key is trimmed. *)
Example appendUsernameToKeys_unicode_space :
  appendUsernameToKeys
    (bs "  ssh-rsa AAA  " ++ nl :: x09 :: nl :: xc2 :: xa0 :: bs "ssh-ed25519 BBB" ++ [nl; nl])
    (bs "bob")
  = bs "ssh-rsa AAA bob" ++ nl :: bs "ssh-ed25519 BBB bob".
Proof. vm_compute. reflexivity. Qed.

(** ** Lines: [Split] and [Join] *)

Section lines.

Import strings.

Lemma Split_not_nil s : Split s ≠ [].
Proof.
  destruct s as [|c t]; simpl; [done|].
  case_decide; [done|]. by destruct (Split t).
Qed.

Lemma Join_cons e rest : rest ≠ [] → Join (e :: rest) = e ++ nl :: Join rest.
Proof. by destruct rest. Qed.

Lemma Join_Split s : Join (Split s) = s.
Proof.
  induction s as [|c t IH]; simpl; [done|].
  case_decide as Hc.
  - subst c. rewrite Join_cons by apply Split_not_nil. by rewrite IH.
  - pose proof (Split_not_nil t) as Hne.
    destruct (Split t) as [|piece rest]; [done|].
    destruct rest as [|piece' rest]; simpl in *; by rewrite <- IH.
Qed.

Lemma Split_no_nl s : Forall (λ line, nl ∉ line) (Split s).
Proof.
  induction s as [|c t IH]; simpl.
  - repeat constructor. by intros ?%elem_of_nil.
  - case_decide as Hc.
    + constructor; [by intros ?%elem_of_nil | done].
    + destruct (Split t) as [|piece rest].
      * repeat constructor. intros ?%list_elem_of_singleton. congruence.
      * inversion_clear IH. constructor; [|done].
        intros [?|?]%elem_of_cons; [congruence | done].
Qed.

Lemma Split_line line : nl ∉ line → Split line = [line].
Proof.
  induction line as [|c t IH]; simpl; [done|].
  intros Hnl. apply not_elem_of_cons in Hnl as [Hc Ht].
  rewrite decide_False by congruence. by rewrite IH.
Qed.

Lemma Split_app_nl line s : nl ∉ line → Split (line ++ nl :: s) = line :: Split s.
Proof.
  induction line as [|c t IH]; simpl.
  - done.
  - intros Hnl. apply not_elem_of_cons in Hnl as [Hc Ht].
    rewrite decide_False by congruence. by rewrite IH.
Qed.

(** Joining newline-free lines and splitting again gives the lines back. *)
Lemma Split_Join lines :
  lines ≠ [] → Forall (λ line, nl ∉ line) lines → Split (Join lines) = lines.
Proof.
  induction lines as [|line rest IH]; [done|].
  intros _ Hall. inversion_clear Hall as [|? ? Hline Hrest].
  destruct rest as [|line' rest].
  - by apply Split_line.
  - rewrite Join_cons by done. rewrite Split_app_nl by done.
    f_equal. by apply IH.
Qed.

Lemma HasSuffix_spec s suffix : HasSuffix s suffix = true ↔ suffix `suffix_of` s.
Proof.
  unfold HasSuffix. rewrite andb_true_iff, !bool_decide_eq_true. split.
  - intros [_ Hdrop]. exists (take (length s - length suffix) s).
    rewrite <- Hdrop at 2. by rewrite take_drop.
  - intros [k ->]. rewrite length_app. split; [lia|].
    replace (length k + length suffix - length suffix) with (length k) by lia.
    by rewrite drop_app_length.
Qed.

Lemma HasSuffix_false s suffix : HasSuffix s suffix = false ↔ ¬ suffix `suffix_of` s.
Proof. rewrite <- HasSuffix_spec. by destruct (HasSuffix s suffix). Qed.

End lines.

(** ** The filter *)

Section filter.

Import strings.

Implicit Types keys username line suffix : bytes.

(** The loop of [removeKeysByUsername] keeps, in order, the lines that do
    not end with the suffix. *)
Lemma removeStep_fold suffix lines acc :
  fold_left (removeStep suffix) lines acc
  = acc ++ filter (λ line, ¬ suffix `suffix_of` line) lines.
Proof.
  revert acc. induction lines as [|line rest IH]; intros acc; simpl.
  - by rewrite app_nil_r.
  - rewrite IH. unfold removeStep. destruct (HasSuffix line suffix) eqn:Hs; simpl.
    + apply HasSuffix_spec in Hs. by rewrite filter_cons_False by tauto.
    + apply HasSuffix_false in Hs. rewrite filter_cons_True by done.
      by rewrite <- app_assoc.
Qed.

Lemma removeKeysByUsername_filter keys username :
  removeKeysByUsername keys username
  = Join (filter (λ line, ¬ (bs " " ++ username) `suffix_of` line) (Split keys)).
Proof. unfold removeKeysByUsername. by rewrite removeStep_fold. Qed.

Lemma filter_no_nl (P : bytes → Prop) `{!∀ l, Decision (P l)} (lines : list bytes) :
  Forall (λ line, nl ∉ line) lines → Forall (λ line, nl ∉ line) (filter P lines).
Proof.
  rewrite !Forall_forall. intros Hall line Hin.
  apply list_elem_of_filter in Hin as [_ Hin]. by apply Hall.
Qed.

(** A line that survives the filter is a line of the result. *)
Lemma removeKeysByUsername_keeps keys username line :
  line ∈ Split keys → ¬ (bs " " ++ username) `suffix_of` line →
  line ∈ Split (removeKeysByUsername keys username).
Proof.
  intros Hin Hsuf. rewrite removeKeysByUsername_filter.
  assert (line ∈ filter (λ line, ¬ (bs " " ++ username) `suffix_of` line) (Split keys))
    as Hkept by (by apply list_elem_of_filter).
  rewrite Split_Join; [done | | ].
  - intros Hnil. rewrite Hnil in Hkept. by apply elem_of_nil in Hkept.
  - apply filter_no_nl, Split_no_nl.
Qed.

Lemma suffix_bob_not_bobby line :
  bs " bob" `suffix_of` line → ¬ bs " bobby" `suffix_of` line.
Proof.
  intros [k ->] [k' Hk'].
  change (bs " bobby") with (bs " b" ++ bs "obby") in Hk'.
  rewrite app_assoc in Hk'.
  apply app_inj_2 in Hk' as [_ Hk']; [discriminate | done].
Qed.

Lemma suffix_bobby_not_bob line :
  bs " bobby" `suffix_of` line → ¬ bs " bob" `suffix_of` line.
Proof.
  intros [k ->] [k' Hk'].
  change (bs " bobby") with (bs " b" ++ bs "obby") in Hk'.
  rewrite app_assoc in Hk'.
  apply app_inj_2 in Hk' as [_ Hk']; [discriminate | done].
Qed.

End filter.

Section filter_claims.

Import strings.

Lemma filter_fixed {A} (P : A → Prop) `{!∀ x, Decision (P x)} (l : list A) :
  Forall P l → filter P l = l.
Proof.
  induction 1 as [|x l Hx _ IH]; [done|].
  rewrite filter_cons_True by done. by rewrite IH.
Qed.

Lemma filter_all {A} (P : A → Prop) `{!∀ x, Decision (P x)} (l : list A) :
  Forall P (filter P l).
Proof. apply Forall_forall. by intros x [? _]%list_elem_of_filter. Qed.

(** C1: the filter splits the store on newlines, leaving each line as it
    is (the lines have no newline and, joined, are the store byte for
    byte), keeps in order exactly the lines that do not end with a space
    followed by the identity, and joins them with newlines; it is a total
    function of its two arguments.  Filtering "keyA user1\nkeyB user2"
    for user1 gives "keyB user2". *)
Theorem removeKeysByUsername_spec :
  (∀ keys username : bytes, ∃ lines : list bytes,
      lines ≠ [] ∧ Forall (λ line, nl ∉ line) lines ∧ Join lines = keys ∧
      removeKeysByUsername keys username
      = Join (filter (λ line, ¬ (bs " " ++ username) `suffix_of` line) lines))
  ∧ removeKeysByUsername (bs "keyA user1" ++ nl :: bs "keyB user2") (bs "user1")
    = bs "keyB user2".
Proof.
  split; [|reflexivity].
  intros keys username. exists (Split keys).
  split; [apply Split_not_nil|].
  split; [apply Split_no_nl|].
  split; [apply Join_Split|].
  apply removeKeysByUsername_filter.
Qed.

(** C5: matching is on the exact trailing token.  A line of the store that
    ends in " bob" is still a line of the result of filtering for bobby,
    and a line that ends in " bobby" is still a line of the result of
    filtering for bob. *)
Theorem removeKeysByUsername_exact_suffix (keys line : bytes) :
  line ∈ Split keys →
  (bs " bob" `suffix_of` line → line ∈ Split (removeKeysByUsername keys (bs "bobby")))
  ∧ (bs " bobby" `suffix_of` line → line ∈ Split (removeKeysByUsername keys (bs "bob"))).
Proof.
  intros Hin. split; intros Hsuf; apply removeKeysByUsername_keeps; try done.
  - by apply suffix_bob_not_bobby.
  - by apply suffix_bobby_not_bob.
Qed.

Lemma removeKeysByUsername_exact_suffix_witness :
  bs "k1 bob" ∈ Split (removeKeysByUsername (bs "k1 bob" ++ nl :: bs "k2 bobby") (bs "bobby")).
Proof.
  apply (proj1 (removeKeysByUsername_exact_suffix
                  (bs "k1 bob" ++ nl :: bs "k2 bobby") (bs "k1 bob")
                  (list_elem_of_here _ _))).
  by exists (bs "k1").
Defined.

(** C8: filtering is idempotent. *)
Theorem removeKeysByUsername_idempotent (keys username : bytes) :
  removeKeysByUsername (removeKeysByUsername keys username) username
  = removeKeysByUsername keys username.
Proof.
  rewrite (removeKeysByUsername_filter keys).
  set (keep := λ line : bytes, ¬ (bs " " ++ username) `suffix_of` line).
  destruct (filter keep (Split keys)) as [|line rest] eqn:Hkept.
  - rewrite removeKeysByUsername_filter. simpl.
    rewrite filter_cons_True; [done|].
    intros [k Hk]. by destruct k.
  - rewrite removeKeysByUsername_filter, Split_Join.
    + f_equal. apply filter_fixed. rewrite <- Hkept. apply filter_all.
    + done.
    + rewrite <- Hkept. apply filter_no_nl, Split_no_nl.
Qed.

End filter_claims.

(** ** Trimming *)

Section trim.

Import strings.

Implicit Types s r w x : bytes.

Lemma stripPrefix_Some p s r : stripPrefix p s = Some r ↔ s = p ++ r.
Proof.
  revert s. induction p as [|c p IH]; intros s; simpl.
  - split; congruence.
  - destruct s as [|c' s]; [done|].
    case_decide as Hc.
    + subst c'. rewrite IH. split; congruence.
    + split; [done | congruence].
Qed.

Lemma stripOneOf_Some runes s r :
  stripOneOf runes s = Some r → ∃ w, w ∈ runes ∧ s = w ++ r.
Proof.
  induction runes as [|e runes IH]; simpl; [done|].
  destruct (stripPrefix e s) as [r'|] eqn:He.
  - intros [= ->]. exists e. split; [left | by apply stripPrefix_Some].
  - intros (w & Hw & ->)%IH. exists w. split; [by right | done].
Qed.

Lemma stripOneOf_None runes s w :
  stripOneOf runes s = None → w ∈ runes → ¬ w `prefix_of` s.
Proof.
  induction runes as [|e runes IH]; simpl; [by intros _ ?%elem_of_nil|].
  destruct (stripPrefix e s) as [r'|] eqn:He; [done|].
  intros Hnone [->|Hw]%elem_of_cons; [|by apply IH].
  intros [k ->]. by rewrite (proj2 (stripPrefix_Some e (e ++ k) k)) in He.
Qed.

Lemma stripLastOneOf_Some runes s r :
  stripLastOneOf runes s = Some r → ∃ w, w ∈ runes ∧ s = r ++ w.
Proof.
  induction runes as [|e runes IH]; simpl; [done|].
  destruct (HasSuffix s e) eqn:He.
  - intros [= <-]. exists e. split; [left|].
    apply HasSuffix_spec in He as [k ->].
    rewrite length_app.
    replace (length k + length e - length e) with (length k) by lia.
    by rewrite take_app_length.
  - intros (w & Hw & ->)%IH. exists w. split; [by right | done].
Qed.

Lemma stripLastOneOf_is_Some runes s w :
  w ∈ runes → w `suffix_of` s → is_Some (stripLastOneOf runes s).
Proof.
  induction runes as [|e runes IH]; simpl; [by intros ?%elem_of_nil|].
  destruct (HasSuffix s e) eqn:He; [by eexists|].
  intros [->|Hw]%elem_of_cons Hsuf; [|by apply IH].
  apply HasSuffix_false in He. done.
Qed.

(** *** Facts about the table of white-space runes *)

Lemma spaceRunes_wellFormed w : w ∈ spaceRunes → wellFormedRune w = true.
Proof.
  intros Hw. assert (Forall (λ e, wellFormedRune e = true) spaceRunes) as Hall
    by (repeat constructor).
  by eapply Forall_forall in Hall.
Qed.

Lemma spaceRunes_nonempty w : w ∈ spaceRunes → 0 < length w.
Proof. intros Hw%spaceRunes_wellFormed. destruct w; [done | simpl; lia]. Qed.

Lemma spaceRunes_nl w : w ∈ spaceRunes → w = [nl] ∨ nl ∉ w.
Proof.
  intros Hw. assert (Forall (λ e, e = [nl] ∨ nl ∉ e) spaceRunes) as Hall.
  { apply (bool_decide_unpack _). by vm_compute. }
  by eapply Forall_forall in Hall.
Qed.

Lemma spaceRunes_suffix_free e w :
  e ∈ spaceRunes → w ∈ spaceRunes → e `suffix_of` w → e = w.
Proof.
  intros He Hw.
  assert (Forall (λ e, Forall (λ w, e `suffix_of` w → e = w) spaceRunes) spaceRunes)
    as Hall.
  { apply (bool_decide_unpack _). by vm_compute. }
  eapply Forall_forall in Hall; [|exact He].
  by eapply Forall_forall in Hall.
Qed.

Lemma stripSpace_app w r : w ∈ spaceRunes → stripSpace (w ++ r) = Some r.
Proof.
  unfold spaceRunes. intros Hw.
  repeat (apply elem_of_cons in Hw as [->|Hw]; [reflexivity|]).
  by apply elem_of_nil in Hw.
Qed.

Lemma stripLastSpace_app r w : w ∈ spaceRunes → stripLastSpace (r ++ w) = Some r.
Proof.
  intros Hw.
  destruct (stripLastOneOf_is_Some spaceRunes (r ++ w) w Hw) as [r' Hr'];
    [by exists r|].
  unfold stripLastSpace. rewrite Hr'. f_equal.
  apply stripLastOneOf_Some in Hr' as (e & He & Heq).
  assert (e = w) as ->.
  { destruct (suffix_weak_total e w (r ++ w)) as [?|?];
      [by exists r' | by exists r | by apply spaceRunes_suffix_free
      | symmetry; by apply spaceRunes_suffix_free]. }
  by apply app_inv_tail in Heq.
Qed.

Lemma stripSpace_shorter s r : stripSpace s = Some r → length r < length s.
Proof.
  intros (w & Hw & ->)%stripOneOf_Some. apply spaceRunes_nonempty in Hw.
  rewrite length_app. lia.
Qed.

Lemma stripLastSpace_shorter s r : stripLastSpace s = Some r → length r < length s.
Proof.
  intros (w & Hw & ->)%stripLastOneOf_Some. apply spaceRunes_nonempty in Hw.
  rewrite length_app. lia.
Qed.

(** *** The loops have rounds enough *)

Lemma trimLeftLoop_enough n m s :
  length s ≤ n → length s ≤ m → trimLeftLoop n s = trimLeftLoop m s.
Proof.
  revert m s. induction n as [|n IH]; intros m s Hn Hm.
  - destruct s; [|simpl in Hn; lia]. by destruct m.
  - destruct m as [|m].
    + destruct s; [done | simpl in Hm; lia].
    + simpl. destruct (stripSpace s) as [r|] eqn:Hs; [|done].
      apply stripSpace_shorter in Hs. apply IH; lia.
Qed.

Lemma TrimLeft_unfold s :
  TrimLeft s = match stripSpace s with Some r => TrimLeft r | None => s end.
Proof.
  unfold TrimLeft. destruct s as [|c s]; [done|].
  cbn [length trimLeftLoop].
  destruct (stripSpace (c :: s)) as [r|] eqn:Hs; [|done].
  apply stripSpace_shorter in Hs. simpl in Hs. apply trimLeftLoop_enough; lia.
Qed.

Lemma trimRightLoop_enough n m s :
  length s ≤ n → length s ≤ m → trimRightLoop n s = trimRightLoop m s.
Proof.
  revert m s. induction n as [|n IH]; intros m s Hn Hm.
  - destruct s; [|simpl in Hn; lia]. by destruct m.
  - destruct m as [|m].
    + destruct s; [done | simpl in Hm; lia].
    + simpl. destruct (stripLastSpace s) as [r|] eqn:Hs; [|done].
      apply stripLastSpace_shorter in Hs. apply IH; lia.
Qed.

Lemma TrimRight_unfold s :
  TrimRight s = match stripLastSpace s with Some r => TrimRight r | None => s end.
Proof.
  unfold TrimRight. destruct s as [|c s]; [done|].
  cbn [length trimRightLoop].
  destruct (stripLastSpace (c :: s)) as [r|] eqn:Hs; [|done].
  apply stripLastSpace_shorter in Hs. simpl in Hs. apply trimRightLoop_enough; lia.
Qed.

End trim.

Section trim_space.

Import strings.

Implicit Types s r w x : bytes.

Lemma TrimLeft_rune w s : w ∈ spaceRunes → TrimLeft (w ++ s) = TrimLeft s.
Proof. intros Hw. by rewrite TrimLeft_unfold, stripSpace_app. Qed.

Lemma TrimRight_rune s w : w ∈ spaceRunes → TrimRight (s ++ w) = TrimRight s.
Proof. intros Hw. by rewrite TrimRight_unfold, stripLastSpace_app. Qed.

Lemma TrimLeft_runes runes s :
  Forall (λ r, r ∈ spaceRunes) runes → TrimLeft (concat runes ++ s) = TrimLeft s.
Proof.
  induction 1 as [|w runes Hw _ IH]; simpl; [done|].
  by rewrite <- app_assoc, TrimLeft_rune.
Qed.

(** What [TrimLeft] drops is a run of white-space runes, and what it
    leaves does not start with one. *)
Lemma TrimLeft_split s :
  ∃ runes, Forall (λ r, r ∈ spaceRunes) runes
           ∧ s = concat runes ++ TrimLeft s
           ∧ stripSpace (TrimLeft s) = None.
Proof.
  induction s as [s IH] using (well_founded_induction (well_founded_ltof _ (@length byte))).
  rewrite (TrimLeft_unfold s).
  destruct (stripSpace s) as [r|] eqn:Hs.
  - pose proof (stripSpace_shorter _ _ Hs) as Hlen.
    apply stripOneOf_Some in Hs as (w & Hw & ->).
    destruct (IH r Hlen) as (runes & Hrunes & Hr & Hnone).
    exists (w :: runes). split; [by constructor|]. split; [|done].
    simpl. rewrite <- app_assoc. by rewrite <- Hr.
  - exists []. by repeat split.
Qed.

Lemma TrimRight_split s :
  ∃ runes, Forall (λ r, r ∈ spaceRunes) runes
           ∧ s = TrimRight s ++ concat runes.
Proof.
  induction s as [s IH] using (well_founded_induction (well_founded_ltof _ (@length byte))).
  rewrite (TrimRight_unfold s).
  destruct (stripLastSpace s) as [r|] eqn:Hs.
  - pose proof (stripLastSpace_shorter _ _ Hs) as Hlen.
    apply stripLastOneOf_Some in Hs as (w & Hw & ->).
    destruct (IH r Hlen) as (runes & Hrunes & Hr).
    exists (runes ++ [w]). split; [apply Forall_app; split; [done | by constructor]|].
    rewrite concat_app. simpl. rewrite app_nil_r, app_assoc. by rewrite <- Hr.
  - exists []. split; [done|]. simpl. by rewrite app_nil_r.
Qed.

(** A white-space rune is never completed across a rune boundary: bytes
    that do not start with a white-space rune still do not when a
    white-space rune follows them. *)
Lemma stripSpace_None_app x w :
  x ≠ [] → stripSpace x = None → w ∈ spaceRunes → stripSpace (x ++ w) = None.
Proof.
  intros Hx Hnone Hw.
  destruct (stripSpace (x ++ w)) as [r|] eqn:Hs; [exfalso|done].
  apply stripOneOf_Some in Hs as (e & He & Heq).
  apply app_eq_inv in Heq as [(k & -> & _)|(k & -> & Hk)].
  - by apply (stripOneOf_None _ _ e Hnone He); exists k.
  - destruct k as [|b k].
    + rewrite app_nil_r in He.
      by apply (stripOneOf_None _ _ x Hnone He).
    + apply spaceRunes_wellFormed in He, Hw. subst w.
      destruct x as [|c x]; [done|]. simpl in He, Hw.
      apply andb_true_iff in He as [_ He], Hw as [Hw _].
      rewrite forallb_app in He. simpl in He.
      rewrite Hw in He. simpl in He. by rewrite andb_false_r in He.
Qed.

Lemma TrimSpace_rune_l w s : w ∈ spaceRunes → TrimSpace (w ++ s) = TrimSpace s.
Proof. intros Hw. unfold TrimSpace. by rewrite TrimLeft_rune. Qed.

Lemma TrimSpace_rune_r s w : w ∈ spaceRunes → TrimSpace (s ++ w) = TrimSpace s.
Proof.
  intros Hw. unfold TrimSpace.
  destruct (TrimLeft_split s) as (runes & Hrunes & Hs & Hnone).
  rewrite Hs at 1. rewrite <- app_assoc, TrimLeft_runes by done.
  destruct (TrimLeft s) as [|c x] eqn:Hx.
  - simpl. rewrite <- (app_nil_r w), TrimLeft_rune by done. done.
  - rewrite (TrimLeft_unfold (_ ++ w)), stripSpace_None_app by done.
    by apply TrimRight_rune.
Qed.

Lemma TrimSpace_nil : TrimSpace [] = [].
Proof. reflexivity. Qed.

Lemma TrimSpace_whitespaceOnly s : whitespaceOnly s → TrimSpace s = [].
Proof.
  intros (runes & Hrunes & ->). unfold TrimSpace.
  rewrite <- (app_nil_r (concat runes)), TrimLeft_runes by done. reflexivity.
Qed.

End trim_space.

(** ** Tagging *)

Section tagging.

Import strings.

Implicit Types keys username line s a w : bytes.

(** The loop of [appendUsernameToKeys] tags, in order, the trimmed lines
    that are not empty. *)
Lemma appendStep_fold username lines acc :
  fold_left (appendStep username) lines acc
  = acc ++ map (λ line, line ++ bs " " ++ username)
             (filter (λ line, line ≠ []) (map TrimSpace lines)).
Proof.
  revert acc. induction lines as [|line rest IH]; intros acc.
  - simpl. by rewrite app_nil_r.
  - cbn [fold_left map]. rewrite IH. unfold appendStep.
    destruct (TrimSpace line) as [|c t] eqn:Hline.
    + by rewrite filter_cons_False by tauto.
    + rewrite filter_cons_True by done. simpl. by rewrite <- app_assoc.
Qed.

Lemma Split_snoc_nl s : Split (s ++ [nl]) = Split s ++ [[]].
Proof.
  induction s as [|c t IH]; simpl; [done|].
  case_decide; [by rewrite IH|].
  rewrite IH. pose proof (Split_not_nil t). by destruct (Split t).
Qed.

Lemma Split_app_l a s :
  nl ∉ a → ∃ first rest, Split s = first :: rest ∧ Split (a ++ s) = (a ++ first) :: rest.
Proof.
  intros Ha. induction a as [|c a IH]; simpl.
  - pose proof (Split_not_nil s). destruct (Split s) as [|first rest]; [done|].
    by exists first, rest.
  - apply not_elem_of_cons in Ha as [Hc Ha].
    destruct (IH Ha) as (first & rest & Hs & Has).
    exists first, rest. split; [done|].
    rewrite decide_False by congruence. by rewrite Has.
Qed.

Lemma Split_app_r s a :
  nl ∉ a → ∃ init final, Split s = init ++ [final] ∧ Split (s ++ a) = init ++ [final ++ a].
Proof.
  intros Ha. induction s as [|c t IH]; simpl.
  - exists [], []. by rewrite Split_line.
  - destruct IH as (init & final & Ht & Hta). rewrite Ht, Hta.
    case_decide.
    + by exists ([] :: init), final.
    + destruct init as [|i init]; simpl.
      * by exists [], (c :: final).
      * by exists ((c :: i) :: init), final.
Qed.

Lemma trimmedLines_rune_l w s : w ∈ spaceRunes → trimmedLines (w ++ s) = trimmedLines s.
Proof.
  intros Hw. unfold trimmedLines.
  destruct (spaceRunes_nl w Hw) as [->|Hnl].
  - simpl. by rewrite filter_cons_False by tauto.
  - destruct (Split_app_l w s Hnl) as (first & rest & -> & ->). simpl.
    by rewrite TrimSpace_rune_l.
Qed.

Lemma trimmedLines_rune_r s w : w ∈ spaceRunes → trimmedLines (s ++ w) = trimmedLines s.
Proof.
  intros Hw. unfold trimmedLines.
  destruct (spaceRunes_nl w Hw) as [->|Hnl].
  - rewrite Split_snoc_nl, map_app, filter_app. simpl.
    rewrite filter_cons_False by tauto. by rewrite filter_nil, app_nil_r.
  - destruct (Split_app_r s w Hnl) as (init & final & -> & ->).
    rewrite !map_app. simpl. by rewrite TrimSpace_rune_r.
Qed.

Lemma trimmedLines_runes_l runes s :
  Forall (λ r, r ∈ spaceRunes) runes → trimmedLines (concat runes ++ s) = trimmedLines s.
Proof.
  induction 1 as [|w runes Hw _ IH]; simpl; [done|].
  by rewrite <- app_assoc, trimmedLines_rune_l.
Qed.

Lemma trimmedLines_runes_r runes s :
  Forall (λ r, r ∈ spaceRunes) runes → trimmedLines (s ++ concat runes) = trimmedLines s.
Proof.
  intros Hrunes. revert s.
  induction Hrunes as [|w runes Hw _ IH]; intros s; simpl.
  - by rewrite app_nil_r.
  - by rewrite app_assoc, IH, trimmedLines_rune_r.
Qed.

(** Trimming the whole blob first, as the code does, changes nothing. *)
Lemma trimmedLines_TrimSpace s : trimmedLines (TrimSpace s) = trimmedLines s.
Proof.
  unfold TrimSpace.
  destruct (TrimLeft_split s) as (front & Hfront & Hs & _).
  destruct (TrimRight_split (TrimLeft s)) as (back & Hback & Hl).
  rewrite Hs at 2. rewrite trimmedLines_runes_l by done.
  rewrite Hl at 2. by rewrite trimmedLines_runes_r.
Qed.

(** C2: tagging is what the specification describes: the blob is split on
    newlines, every line trimmed, the lines left empty dropped, a space
    and the identity appended to each remaining line, and the lines joined
    with newlines in their order; the function is total, and on a blob of
    white space only (the empty blob included) it gives the empty block. *)
Theorem appendUsernameToKeys_spec keys username :
  appendUsernameToKeys keys username = tagged keys username
  ∧ (whitespaceOnly keys → appendUsernameToKeys keys username = []).
Proof.
  split.
  - unfold appendUsernameToKeys, tagged. rewrite appendStep_fold. simpl.
    f_equal. f_equal. apply trimmedLines_TrimSpace.
  - intros Hws. unfold appendUsernameToKeys.
    by rewrite TrimSpace_whitespaceOnly.
Qed.

Lemma appendUsernameToKeys_spec_witness :
  appendUsernameToKeys (bs "  " ++ [nl; x09]) (bs "bob") = [].
Proof.
  apply (proj2 (appendUsernameToKeys_spec (bs "  " ++ [nl; x09]) (bs "bob"))).
  exists [[x20]; [x20]; [nl]; [x09]]. split; [|reflexivity].
  repeat constructor.
Defined.

End tagging.

(** ** Confirmation *)

Section confirmation.

Import strings.

Implicit Types (r : Reader) (w : World) (s line prompt : bytes).

Lemma cutLine_line l rest : nl ∉ l → cutLine (l ++ nl :: rest) = Some (l ++ [nl], rest).
Proof.
  induction l as [|c l IH]; simpl; [done|].
  intros [Hc Hl]%not_elem_of_cons.
  rewrite decide_False by congruence. by rewrite IH.
Qed.

Lemma cutLine_None s : nl ∉ s → cutLine s = None.
Proof.
  induction s as [|c s IH]; simpl; [done|].
  intros [Hc Hs]%not_elem_of_cons.
  rewrite decide_False by congruence. by rewrite IH.
Qed.

Lemma cutLine_Some s line rest :
  cutLine s = Some (line, rest) → ∃ l, line = l ++ [nl] ∧ (nl ∉ l) ∧ s = line ++ rest.
Proof.
  revert line. induction s as [|c s IH]; intros line; simpl; [done|].
  case_decide as Hc.
  - intros [= <- <-]. subst c. exists []. repeat split. by intros ?%elem_of_nil.
  - destruct (cutLine s) as [[line' rest']|]; [|done].
    intros [= <- <-]. destruct (IH line' eq_refl) as (l & -> & Hl & ->).
    exists (c :: l). repeat split.
    intros [?|?]%elem_of_cons; [congruence | done].
Qed.

Lemma cutLine_None_inv s : cutLine s = None → nl ∉ s.
Proof.
  induction s as [|c s IH]; simpl; [by intros _ ?%elem_of_nil|].
  case_decide as Hc; [done|].
  destruct (cutLine s) as [[line' rest']|]; [done|].
  intros _ [?|?]%elem_of_cons; [congruence | by apply IH].
Qed.

Lemma lowerByte_y c : lowerByte c = "y"%byte → c = "y"%byte ∨ c = "Y"%byte.
Proof. destruct c; vm_compute; intros H; try discriminate H; auto. Qed.

Lemma lowerByte_e c : lowerByte c = "e"%byte → c = "e"%byte ∨ c = "E"%byte.
Proof. destruct c; vm_compute; intros H; try discriminate H; auto. Qed.

Lemma lowerByte_s c : lowerByte c = "s"%byte → c = "s"%byte ∨ c = "S"%byte.
Proof. destruct c; vm_compute; intros H; try discriminate H; auto. Qed.

(** Lowered, a string is the word yes exactly when it is one of its
    spellings. *)
Lemma ToLower_yes s : ToLower s = bs "yes" ↔ s ∈ yesWords.
Proof.
  split.
  - unfold ToLower. destruct s as [|c1 [|c2 [|c3 [|c4 s]]]]; try done.
    intros [= H1%lowerByte_y H2%lowerByte_e H3%lowerByte_s].
    destruct H1 as [-> | ->], H2 as [-> | ->], H3 as [-> | ->];
      apply (bool_decide_unpack _); by vm_compute.
  - unfold yesWords. simpl. intros Hs.
    repeat (apply elem_of_cons in Hs as [->|Hs]; [reflexivity|]).
    by apply elem_of_nil in Hs.
Qed.

Lemma promptConfirmation_run prompt w :
  promptConfirmation prompt w
  = (fst (readAnswer (stdinReader w)),
     setStdin (snd (readAnswer (stdinReader w))) (setStdout (stdout w ++ prompt) w)).
Proof.
  unfold promptConfirmation, mbind, M_bind, bind, Fprint. simpl.
  by destruct (readAnswer (stdinReader w)).
Qed.

Lemma yes_decide s :
  bool_decide (ToLower s = bs "yes") = bool_decide (s ∈ yesWords).
Proof. apply bool_decide_ext, ToLower_yes. Qed.

(** C9: the confirmation reads the next line of the stream.  It returns an
    error exactly when the stream fails, the error of the stream; when the
    stream does not fail it returns true exactly when the line, trimmed,
    is the word yes in some mix of cases, and false otherwise. *)
Theorem promptConfirmation_spec prompt w :
  let r := stdinReader w in
  let res := fst (promptConfirmation prompt w) in
  ∃ line, nextLine r line
    ∧ ((∃ e, res = Err e) ↔ streamFails r)
    ∧ (streamFails r → res = Err (closing r))
    ∧ (¬ streamFails r → res = Ok (bool_decide (TrimSpace line ∈ yesWords))).
Proof.
  cbv zeta. rewrite promptConfirmation_run. cbn [fst].
  destruct (stdinReader w) as [input final].
  unfold readAnswer, ReadString, streamFails, nextLine. cbn [pending closing].
  destruct (cutLine input) as [[line rest]|] eqn:Hcut.
  - apply cutLine_Some in Hcut as (l & -> & Hl & ->).
    exists (l ++ [nl]). cbn [fst]. rewrite yes_decide.
    assert (nl ∈ (l ++ [nl]) ++ rest) as Hin by set_solver.
    split; [left; by exists l, rest|].
    split; [split; [by intros [e ?] | by intros [? _]]|].
    split; [by intros [? _] | done].
  - apply cutLine_None_inv in Hcut.
    exists input. split; [by right|].
    destruct final; cbn [fst]; rewrite ?yes_decide.
    2: { split; [split; [by intros [e ?] | by intros [_ ?]]|].
         split; [by intros [_ ?] | done]. }
    all: split; [split; [by intros _ | by eexists]|].
    all: split; [done | intros Hnf; by destruct Hnf].
Qed.

Lemma promptConfirmation_spec_witness :
  let w := quietWorld ∅ [] (bs " Yes" ++ [nl]) in
  ∃ line, nextLine (stdinReader w) line
    ∧ fst (promptConfirmation (bs "? ") w) = Ok (bool_decide (TrimSpace line ∈ yesWords)).
Proof.
  intros w.
  destruct (promptConfirmation_spec (bs "? ") w) as (line & Hline & _ & _ & Hok).
  exists line. split; [exact Hline|]. apply Hok.
  intros [Hnl _]. apply Hnl. apply (bool_decide_unpack _). by vm_compute.
Defined.

(** C10: when the input ends before a newline, the empty input included,
    the confirmation does not fail: it returns true exactly when the
    bytes read, trimmed and lowered, are the word yes, and false
    otherwise. *)
Theorem promptConfirmation_at_EOF prompt w :
  nl ∉ pending (stdinReader w) →
  closing (stdinReader w) = errEOF →
  fst (promptConfirmation prompt w)
  = Ok (bool_decide (ToLower (TrimSpace (pending (stdinReader w))) = bs "yes")).
Proof.
  intros Hnl Heof. rewrite promptConfirmation_run. simpl.
  unfold readAnswer, ReadString. rewrite cutLine_None by done.
  by rewrite Heof.
Qed.

Lemma promptConfirmation_at_EOF_witness :
  fst (promptConfirmation (bs "? ") (quietWorld ∅ [] (bs "  YES ")))
  = Ok (bool_decide (ToLower (TrimSpace (bs "  YES ")) = bs "yes")).
Proof.
  apply (promptConfirmation_at_EOF (bs "? ") (quietWorld ∅ [] (bs "  YES "))).
  - apply (bool_decide_unpack _). by vm_compute.
  - reflexivity.
Defined.

End confirmation.

(** ** More on the tagger and the matcher *)

Section tagger_matcher.

Import strings.

Implicit Types keys store username line s : bytes.

(** The matcher's test, as a predicate on lines. *)
Local Abbreviation keeps username :=
  (λ line : bytes, ¬ (bs " " ++ username) `suffix_of` line).

Lemma Split_app s1 s2 : Split (s1 ++ nl :: s2) = Split s1 ++ Split s2.
Proof.
  induction s1 as [|c s1 IH]; simpl; [done|].
  rewrite IH. case_decide; [done|].
  pose proof (Split_not_nil s1). by destruct (Split s1).
Qed.

Lemma removeKeysByUsername_lines keys username :
  Split (removeKeysByUsername keys username)
  = match filter (keeps username) (Split keys) with
    | [] => [[]]
    | kept => kept
    end.
Proof.
  rewrite removeKeysByUsername_filter.
  destruct (filter (keeps username) (Split keys)) as [|line rest] eqn:Hkept; [done|].
  apply Split_Join; [done|]. rewrite <- Hkept. apply filter_no_nl, Split_no_nl.
Qed.

Lemma keeps_nil username : ¬ (bs " " ++ username) `suffix_of` [].
Proof. intros [k Hk]. by destruct k. Qed.

(** X1: after a removal no line of the store ends with the identity's tag. *)
Theorem removeKeysByUsername_clean keys username :
  Forall (λ line, ¬ (bs " " ++ username) `suffix_of` line)
    (Split (removeKeysByUsername keys username)).
Proof.
  rewrite removeKeysByUsername_lines.
  destruct (filter (keeps username) (Split keys)) as [|line rest] eqn:Hkept.
  - repeat constructor. apply keeps_nil.
  - rewrite <- Hkept. apply (filter_all (keeps username)).
Qed.

(** X2: a store with no line tagged for the identity is returned byte for
    byte: the filter does not normalise what it keeps. *)
Theorem removeKeysByUsername_no_match keys username :
  Forall (λ line, ¬ (bs " " ++ username) `suffix_of` line) (Split keys) →
  removeKeysByUsername keys username = keys.
Proof.
  intros Hall. rewrite removeKeysByUsername_filter.
  rewrite filter_fixed by done. apply Join_Split.
Qed.

Lemma removeKeysByUsername_no_match_witness :
  removeKeysByUsername (bs "k1 al" ++ nl :: nl :: bs " k2 bobby " ++ [nl]) (bs "bob")
  = bs "k1 al" ++ nl :: nl :: bs " k2 bobby " ++ [nl].
Proof.
  apply removeKeysByUsername_no_match.
  apply (bool_decide_unpack _). by vm_compute.
Defined.

(** X3: removing two identities gives the same store in either order. *)
Theorem removeKeysByUsername_comm keys u v :
  removeKeysByUsername (removeKeysByUsername keys u) v
  = removeKeysByUsername (removeKeysByUsername keys v) u.
Proof.
  assert (∀ a b,
    removeKeysByUsername (removeKeysByUsername keys a) b
    = Join (filter (λ line, keeps b line ∧ keeps a line) (Split keys))) as Hboth.
  { intros a b. rewrite (removeKeysByUsername_filter _ b), removeKeysByUsername_lines.
    rewrite <- list_filter_filter.
    destruct (filter (keeps a) (Split keys)) as [|line rest]; [|done].
    simpl. rewrite filter_cons_True by apply keeps_nil. done. }
  rewrite !Hboth. f_equal. apply list_filter_iff. tauto.
Qed.

(** *** The tagged block *)

Lemma appendUsernameToKeys_lines keys username :
  appendUsernameToKeys keys username
  = Join (map (λ line, line ++ bs " " ++ username) (trimmedLines keys)).
Proof.
  unfold appendUsernameToKeys. rewrite appendStep_fold. simpl.
  f_equal. f_equal. apply trimmedLines_TrimSpace.
Qed.

Lemma TrimSpace_empty_whitespaceOnly s : TrimSpace s = [] → whitespaceOnly s.
Proof.
  unfold TrimSpace. intros Hempty.
  destruct (TrimLeft_split s) as (front & Hfront & Hs & _).
  destruct (TrimRight_split (TrimLeft s)) as (back & Hback & Hl).
  rewrite Hempty in Hl. simpl in Hl.
  exists (front ++ back). split; [by apply Forall_app|].
  by rewrite concat_app, Hs, Hl at 1.
Qed.

Lemma stripSpace_prefix s t r : stripSpace (s ++ t) = None → stripSpace s = Some r → False.
Proof.
  intros Hnone (w & Hw & ->)%stripOneOf_Some.
  apply (stripOneOf_None _ _ w Hnone Hw). exists (r ++ t). by rewrite app_assoc.
Qed.

(** Trimming leaves bytes that do not start with a white-space rune. *)
Lemma TrimSpace_head s : stripSpace (TrimSpace s) = None.
Proof.
  unfold TrimSpace.
  destruct (TrimLeft_split s) as (_ & _ & _ & Hnone).
  destruct (TrimRight_split (TrimLeft s)) as (back & _ & Hl).
  destruct (stripSpace (TrimRight (TrimLeft s))) as [r|] eqn:Hs; [exfalso|done].
  rewrite Hl in Hnone. by eapply stripSpace_prefix.
Qed.

Lemma whitespaceOnly_head s :
  whitespaceOnly s → s = [] ∨ ∃ r, stripSpace s = Some r.
Proof.
  intros (runes & Hrunes & ->). destruct Hrunes as [|w runes Hw _]; [by left|].
  right. exists (concat runes). simpl. by apply stripSpace_app.
Qed.

(** A blob with something else than white space has a line with something
    else than white space. *)
Lemma trimmedLines_not_nil s : TrimSpace s ≠ [] → trimmedLines s ≠ [].
Proof.
  intros Hne. rewrite <- trimmedLines_TrimSpace. unfold trimmedLines.
  pose proof (TrimSpace_head s) as Hhead.
  pose proof (Join_Split (TrimSpace s)) as Hjoin.
  destruct (Split (TrimSpace s)) as [|first rest] eqn:Hsplit; [by apply Split_not_nil in Hsplit|].
  assert (∃ t, TrimSpace s = first ++ t ∧ (first = [] → t ≠ [] → ∃ t', t = nl :: t'))
    as (t & Ht & Hnl).
  { destruct rest as [|second rest].
    - exists []. simpl in Hjoin. rewrite app_nil_r. by split.
    - exists (nl :: Join (second :: rest)). split; [done | by eexists]. }
  simpl. destruct (decide (TrimSpace first = [])) as [Hblank|Hfull].
  - exfalso. apply TrimSpace_empty_whitespaceOnly, whitespaceOnly_head in Hblank
      as [->|[r Hr]].
    + simpl in Ht. destruct t as [|c t]; [congruence|].
      destruct (Hnl eq_refl) as [t' [= -> ->]]; [done|].
      rewrite Ht in Hhead. discriminate Hhead.
    + rewrite Ht in Hhead. by eapply stripSpace_prefix.
  - by rewrite filter_cons_True.
Qed.

Lemma appendUsernameToKeys_not_empty keys username :
  ¬ whitespaceOnly keys → appendUsernameToKeys keys username ≠ [].
Proof.
  intros Hkeys Hempty.
  assert (TrimSpace keys ≠ []) as Hne
    by (intros Hblank; by apply Hkeys, TrimSpace_empty_whitespaceOnly).
  apply trimmedLines_not_nil in Hne.
  rewrite appendUsernameToKeys_lines in Hempty.
  destruct (trimmedLines keys) as [|line [|line' rest]]; [done| |];
    simpl in Hempty; by destruct line.
Qed.

(** X4: tagging gives the empty block exactly for a blob of white space only:
    a blob that passes the test of [run] gives keys to show and write. *)
Theorem appendUsernameToKeys_empty_iff keys username :
  appendUsernameToKeys keys username = [] ↔ whitespaceOnly keys.
Proof.
  split.
  - intros Hempty.
    destruct (decide (TrimSpace keys = [])) as [Hblank|Hne];
      [by apply TrimSpace_empty_whitespaceOnly|exfalso].
    apply (appendUsernameToKeys_not_empty keys username); [|done].
    intros Hws. by apply Hne, TrimSpace_whitespaceOnly.
  - intros Hws. unfold appendUsernameToKeys. by rewrite TrimSpace_whitespaceOnly.
Qed.

Lemma TrimSpace_no_nl s : nl ∉ s → nl ∉ TrimSpace s.
Proof.
  unfold TrimSpace. intros Hs Hin. apply Hs.
  destruct (TrimLeft_split s) as (front & _ & Hfront & _).
  destruct (TrimRight_split (TrimLeft s)) as (back & _ & Hback).
  assert (nl ∈ TrimLeft s) as Hleft
    by (rewrite Hback; apply elem_of_app; by left).
  rewrite Hfront. apply elem_of_app. by right.
Qed.

Lemma filter_none {A} (P : A → Prop) `{!∀ x, Decision (P x)} (l : list A) :
  Forall (λ x, ¬ P x) l → filter P l = [].
Proof.
  induction 1 as [|x l Hx _ IH]; [done|]. by rewrite filter_cons_False.
Qed.

(** The lines of the tagged block are the tagged lines, when the identity
    has no newline in it. *)
Lemma appendUsernameToKeys_Split keys username :
  nl ∉ username → ¬ whitespaceOnly keys →
  Split (appendUsernameToKeys keys username)
  = map (λ line, line ++ bs " " ++ username) (trimmedLines keys).
Proof.
  intros Hu Hkeys. rewrite appendUsernameToKeys_lines. apply Split_Join.
  - intros Hnil%map_eq_nil. revert Hnil. apply trimmedLines_not_nil.
    intros Hempty. by apply Hkeys, TrimSpace_empty_whitespaceOnly.
  - apply Forall_map, Forall_forall. intros line Hline.
    apply list_elem_of_filter in Hline as [_ Hline].
    apply list_elem_of_fmap in Hline as (raw & -> & Hraw).
    pose proof (Split_no_nl keys) as Hall.
    eapply Forall_forall in Hall; [|exact Hraw].
    apply TrimSpace_no_nl in Hall.
    rewrite !elem_of_app. intros [?|[Hsp|?]]; [done| |done].
    apply list_elem_of_singleton in Hsp. discriminate Hsp.
Qed.

Lemma appendUsernameToKeys_suffixes keys username :
  nl ∉ username → ¬ whitespaceOnly keys →
  Forall (λ line, (bs " " ++ username) `suffix_of` line)
    (Split (appendUsernameToKeys keys username)).
Proof.
  intros Hu Hkeys. rewrite appendUsernameToKeys_Split by done.
  apply Forall_map, Forall_forall. intros key _. by exists key.
Qed.

(** X5: every line of the tagged block is a key, not empty, followed by a space
    and the identity: the block has no blank line and each of its lines
    carries the tag the matcher looks for. *)
Theorem appendUsernameToKeys_tags_every_line keys username :
  nl ∉ username → ¬ whitespaceOnly keys →
  Forall (λ line, ∃ key, key ≠ [] ∧ line = key ++ bs " " ++ username)
    (Split (appendUsernameToKeys keys username)).
Proof.
  intros Hu Hkeys. rewrite appendUsernameToKeys_Split by done.
  apply Forall_map, Forall_forall. intros key Hkey.
  apply list_elem_of_filter in Hkey as [Hne _]. by exists key.
Qed.

Lemma appendUsernameToKeys_tags_every_line_witness :
  Forall (λ line, ∃ key, key ≠ [] ∧ line = key ++ bs " " ++ bs "bob")
    (Split (appendUsernameToKeys (bs " k1 " ++ nl :: nl :: bs "k2") (bs "bob"))).
Proof.
  apply appendUsernameToKeys_tags_every_line.
  - apply (bool_decide_unpack _). by vm_compute.
  - intros Hws%TrimSpace_whitespaceOnly. vm_compute in Hws. discriminate Hws.
Defined.

(** X6: removing an identity right after its block was appended to a store
    gives what removing it from the store alone gives, and removing it from
    the block alone gives the empty store. *)
Theorem removeKeysByUsername_undoes_append store keys username :
  nl ∉ username → ¬ whitespaceOnly keys →
  let block := appendUsernameToKeys keys username in
  removeKeysByUsername (store ++ nl :: block) username
  = removeKeysByUsername store username
  ∧ removeKeysByUsername block username = [].
Proof.
  intros Hu Hkeys block.
  assert (filter (keeps username) (Split block) = []) as Hnone.
  { apply filter_none.
    pose proof (appendUsernameToKeys_suffixes keys username Hu Hkeys) as Hall.
    eapply Forall_impl; [exact Hall|]. simpl. tauto. }
  split.
  - rewrite !removeKeysByUsername_filter, Split_app, filter_app, Hnone.
    by rewrite app_nil_r.
  - by rewrite removeKeysByUsername_filter, Hnone.
Qed.

Lemma removeKeysByUsername_undoes_append_witness :
  removeKeysByUsername
    (bs "k0 al" ++ nl :: appendUsernameToKeys (bs " k1 " ++ nl :: nl :: bs "k2") (bs "bob"))
    (bs "bob")
  = removeKeysByUsername (bs "k0 al") (bs "bob").
Proof.
  apply (removeKeysByUsername_undoes_append (bs "k0 al")
           (bs " k1 " ++ nl :: nl :: bs "k2") (bs "bob")).
  - apply (bool_decide_unpack _). by vm_compute.
  - intros Hws%TrimSpace_whitespaceOnly. vm_compute in Hws. discriminate Hws.
Defined.

End tagger_matcher.

(** ** The protocols *)

Section protocols.

Import strings.

Implicit Types (w : World) (keys username : bytes) (home : path).

(** One step of a computation, once its outcome is known. *)
Lemma bind_Ok {A B} (m : M A) (k : A → M B) w a w' :
  m w = (Ok a, w') → (m ≫= k) w = k a w'.
Proof. unfold mbind, M_bind, bind. by intros ->. Qed.

Lemma bind_Err {A B} (m : M A) (k : A → M B) w e w' :
  m w = (Err e, w') → (m ≫= k) w = (Err e, w').
Proof. unfold mbind, M_bind, bind. by intros ->. Qed.

Lemma getAuthorizedKeysPath_Ok w home :
  userCurrent w = Ok home → getAuthorizedKeysPath w = (Ok (authorizedKeysOf home), w).
Proof. unfold getAuthorizedKeysPath. by intros ->. Qed.

Lemma attempt_run {A} (m : M A) w : attempt m w = (Ok (fst (m w)), snd (m w)).
Proof. unfold attempt. by destruct (m w). Qed.

Lemma Stat_world p w : snd (os.Stat p w) = w.
Proof.
  unfold os.Stat, os.faulty. destruct (faults w SysStat p); [done|].
  by destruct (files w !! p).
Qed.

Lemma Stat_missing p w :
  files w !! p = None → faults w SysStat p = None →
  fst (os.Stat p w) = Err (errSyscall ENOENT).
Proof. unfold os.Stat, os.faulty. by intros -> ->. Qed.




Arguments bs : simpl never.
Arguments appendUsernameToKeys : simpl never.
Arguments removeKeysByUsername : simpl never.
Arguments promptConfirmation : simpl never.
Arguments ensureSSHDir : simpl never.
Arguments os.Stat : simpl never.
Arguments os.Mkdir : simpl never.
Arguments os.OpenFileAppend : simpl never.
Arguments os.FileSize : simpl never.
Arguments os.FileWrite : simpl never.
Arguments os.WriteFile : simpl never.
Arguments os.ReadFile : simpl never.
Arguments attempt : simpl never.

(** Unfold the sequencing of a protocol and compute. *)
Ltac run := unfold mbind, M_bind, bind, mret, M_ret, ret, Fprintln, Fprint; cbn.

Lemma Stat_present p w n :
  files w !! p = Some n → faults w SysStat p = None → fst (os.Stat p w) = Ok n.
Proof. unfold os.Stat, os.faulty. by intros -> ->. Qed.

Lemma sshDir_not_file home : sshDirOf home ≠ authorizedKeysOf home.
Proof.
  unfold sshDirOf, authorizedKeysOf. intros Heq%(f_equal length).
  rewrite !length_app in Heq. simpl in Heq. lia.
Qed.

Lemma removelast_authorizedKeys home : removelast (authorizedKeysOf home) = sshDirOf home.
Proof.
  unfold authorizedKeysOf, sshDirOf.
  change [".ssh"; "authorized_keys"]%string
    with ([".ssh"%string] ++ ["authorized_keys"%string]).
  by rewrite app_assoc, removelast_last.
Qed.

Lemma parentDir_authorizedKeys fs home dmode :
  fs !! sshDirOf home = Some (Dir dmode) → os.parentDir fs (authorizedKeysOf home) = Ok tt.
Proof.
  unfold os.parentDir. rewrite removelast_authorizedKeys. intros Hd.
  unfold sshDirOf in *. destruct home; simpl in *; by rewrite Hd.
Qed.

(** *** Declined prompts *)

(** C4: when the operator declines a confirmation prompt, of add (the
    prompt to create the file or the prompt to add) or of remove, the
    operation returns without an error, says that it was aborted, and the
    files are exactly as before: nothing created, written or truncated. *)
Theorem declined_prompt_changes_nothing keys username w :
  (declinesAdd w →
   ∃ w', confirmAndAddKeys keys username w = (Ok tt, w')
         ∧ files w' = files w ∧ aborted w')
  ∧ (declinesRemove w →
     ∃ w', confirmAndRemoveKeys keys username w = (Ok tt, w')
           ∧ files w' = files w ∧ aborted w').
Proof.
  split.
  - intros (home & Hhome & Hd). unfold confirmAndAddKeys, aborted.
    erewrite bind_Ok by by apply getAuthorizedKeysPath_Ok.
    erewrite bind_Ok by apply attempt_run.
    rewrite Stat_world.
    destruct (notExist (fst (os.Stat (authorizedKeysOf home) w))); cbn [negb].
    + destruct Hd as [Hno | [Hyes Hno]].
      * (* the prompt to create the file is declined *)
        run. rewrite promptConfirmation_run, Hno. cbn.
        eexists. split; [reflexivity|]. split; [reflexivity|].
        eexists. reflexivity.
      * (* creation is confirmed, the prompt to add is declined *)
        run. rewrite promptConfirmation_run, Hyes. cbn.
        rewrite promptConfirmation_run. cbn. rewrite Hno. cbn.
        eexists. split; [reflexivity|]. split; [reflexivity|].
        eexists. reflexivity.
    + (* the file is there, the prompt to add is declined *)
      run. rewrite promptConfirmation_run. cbn. rewrite Hd. cbn.
      eexists. split; [reflexivity|]. split; [reflexivity|].
      eexists. reflexivity.
  - intros (home & Hhome & Hthere & Hno). unfold confirmAndRemoveKeys, aborted.
    erewrite bind_Ok by by apply getAuthorizedKeysPath_Ok.
    erewrite bind_Ok by apply attempt_run.
    rewrite Stat_world, Hthere.
    run. rewrite promptConfirmation_run. cbn. rewrite Hno. cbn.
    eexists. split; [reflexivity|]. split; [reflexivity|].
    eexists. reflexivity.
Qed.

Lemma declined_prompt_changes_nothing_witness :
  let w := quietWorld ∅ ["home"; "alice"]%string (bs "yes" ++ nl :: bs "no" ++ [nl]) in
  ∃ w', confirmAndAddKeys (bs "ssh-rsa AAA") (bs "bob") w = (Ok tt, w')
        ∧ files w' = files w ∧ aborted w'.
Proof.
  intros w.
  apply (proj1 (declined_prompt_changes_nothing (bs "ssh-rsa AAA") (bs "bob") w)).
  exists ["home"; "alice"]%string. split; [reflexivity|].
  right. split; vm_compute; reflexivity.
Defined.

(** *** Confirmed additions *)

Lemma added_to_existing keys username w home mode content dmode :
  userCurrent w = Ok home →
  (∀ call q, faults w call q = None) →
  files w !! authorizedKeysOf home = Some (File mode content) →
  files w !! sshDirOf home = Some (Dir dmode) →
  fst (readAnswer (stdinReader w)) = Ok true →
  ∃ w', confirmAndAddKeys keys username w = (Ok tt, w')
    ∧ files w'
      = <[authorizedKeysOf home :=
            File mode (if decide (content = []) then appendUsernameToKeys keys username
                       else content ++ nl :: appendUsernameToKeys keys username)]>
          (files w).
Proof.
  intros Hhome Hfaults Hfile Hdir Hyes. unfold confirmAndAddKeys.
  erewrite bind_Ok by by apply getAuthorizedKeysPath_Ok.
  erewrite bind_Ok by apply attempt_run.
  rewrite Stat_world, (Stat_present _ _ _ Hfile (Hfaults _ _)). cbn [notExist negb].
  run. rewrite promptConfirmation_run. cbn. rewrite Hyes. cbn.
  unfold ensureSSHDir. cbn. rewrite Hhome. run.
  unfold attempt, os.Stat, os.faulty. cbn. rewrite Hfaults.
  fold (sshDirOf home). rewrite Hdir.
  unfold os.OpenFileAppend, os.faulty. cbn. rewrite Hfaults, Hfile.
  unfold os.FileSize, os.faulty. cbn. rewrite Hfaults, Hfile.
  destruct content as [|c content]; cbn [length].
  - rewrite bool_decide_eq_false_2 by lia. rewrite decide_True by done.
    unfold os.FileWrite, os.faulty. cbn. rewrite Hfaults, Hfile.
    eexists. split; reflexivity.
  - rewrite bool_decide_eq_true_2 by lia. rewrite decide_False by done.
    unfold os.FileWrite, os.faulty. cbn. rewrite Hfaults, Hfile. cbn.
    rewrite Hfaults, lookup_insert_eq. cbn. rewrite insert_insert_eq.
    eexists. split; [reflexivity|]. cbn. by rewrite <- app_assoc.
Qed.

Lemma ensureSSHDir_run w home dmode :
  userCurrent w = Ok home →
  (∀ call q, faults w call q = None) →
  files w !! sshDirOf home = Some (Dir dmode)
  ∨ (files w !! sshDirOf home = None ∧ os.parentDir (files w) (sshDirOf home) = Ok tt) →
  ensureSSHDir w = (Ok tt, setFiles (ensured (files w) home) w).
Proof.
  intros Hhome Hfaults Hdir. unfold ensureSSHDir, ensured. rewrite Hhome. run.
  unfold attempt, os.Stat, os.faulty. rewrite Hfaults. fold (sshDirOf home).
  destruct Hdir as [Hdir | [Hdir Hparent]]; rewrite Hdir; cbn.
  - by destruct w.
  - unfold os.Mkdir, os.faulty. by rewrite Hfaults, Hdir, Hparent.
Qed.

Lemma created_when_missing keys username w home dmode :
  userCurrent w = Ok home →
  (∀ call q, faults w call q = None) →
  files w !! authorizedKeysOf home = None →
  files w !! sshDirOf home = Some (Dir dmode)
  ∨ (files w !! sshDirOf home = None ∧ os.parentDir (files w) (sshDirOf home) = Ok tt) →
  fst (readAnswer (stdinReader w)) = Ok true →
  fst (readAnswer (snd (readAnswer (stdinReader w)))) = Ok true →
  ∃ w', confirmAndAddKeys keys username w = (Ok tt, w')
    ∧ files w'
      = <[authorizedKeysOf home := File (octal 6 0 0) (appendUsernameToKeys keys username)]>
          (ensured (files w) home).
Proof.
  intros Hhome Hfaults Hfile Hdir Hyes1 Hyes2. unfold confirmAndAddKeys.
  erewrite bind_Ok by by apply getAuthorizedKeysPath_Ok.
  erewrite bind_Ok by apply attempt_run.
  rewrite Stat_world, (Stat_missing _ _ Hfile (Hfaults _ _)). cbn [notExist os.IsNotExist negb].
  run. rewrite promptConfirmation_run, Hyes1. cbn.
  rewrite promptConfirmation_run. cbn. rewrite Hyes2. cbn.
  erewrite (ensureSSHDir_run _ home dmode); [|done|done|done]. cbn.
  assert (ensured (files w) home !! authorizedKeysOf home = None) as Hfile'.
  { unfold ensured. destruct (files w !! sshDirOf home); [done|].
    rewrite lookup_insert_ne; [done | apply sshDir_not_file]. }
  assert (∃ m, ensured (files w) home !! sshDirOf home = Some (Dir m)) as [m Hdir'].
  { unfold ensured. destruct Hdir as [Hdir | [Hdir _]]; rewrite Hdir.
    - by eexists.
    - eexists. apply lookup_insert_eq. }
  unfold os.WriteFile, os.faulty. run. rewrite Hfaults, Hfile'.
  rewrite (parentDir_authorizedKeys _ _ _ Hdir').
  unfold os.FileWrite, os.faulty. cbn. rewrite Hfaults, lookup_insert_eq. cbn.
  rewrite insert_insert_eq. eexists. split; reflexivity.
Qed.

(** C3: with no failure imposed by the environment,
    - a confirmed add to an existing file that is not empty leaves its
      mode and makes its content the old content, one newline and the
      tagged block, and to an existing empty file makes its content the
      tagged block alone; no other file changes;
    - an add to a missing file, confirmed twice, creates the file with
      mode 0600 and the tagged block as its whole content, after creating
      its directory with mode 0700 if that is missing too. *)
Theorem confirmAndAddKeys_writes keys username w home :
  userCurrent w = Ok home →
  (∀ call q, faults w call q = None) →
  let block := appendUsernameToKeys keys username in
  let file := authorizedKeysOf home in
  let confirmed r := fst (readAnswer r) = Ok true in
  (∀ mode content dmode,
      files w !! file = Some (File mode content) →
      files w !! sshDirOf home = Some (Dir dmode) →
      confirmed (stdinReader w) →
      ∃ w', confirmAndAddKeys keys username w = (Ok tt, w')
        ∧ files w'
          = <[file := File mode (if decide (content = []) then block
                                 else content ++ nl :: block)]> (files w))
  ∧ (∀ dmode,
      files w !! file = None →
      files w !! sshDirOf home = Some (Dir dmode)
      ∨ (files w !! sshDirOf home = None
         ∧ os.parentDir (files w) (sshDirOf home) = Ok tt) →
      confirmed (stdinReader w) →
      confirmed (snd (readAnswer (stdinReader w))) →
      ∃ w', confirmAndAddKeys keys username w = (Ok tt, w')
        ∧ files w' = <[file := File (octal 6 0 0) block]> (ensured (files w) home)).
Proof.
  intros Hhome Hfaults block file confirmed. split.
  - intros mode content dmode. by apply added_to_existing.
  - intros dmode. by apply created_when_missing.
Qed.

Lemma confirmAndAddKeys_writes_witness :
  let home := ["home"; "alice"]%string in
  let fs : gmap path node :=
    <[authorizedKeysOf home := File (octal 6 4 4) (bs "k1 al")]>
      (<[sshDirOf home := Dir (octal 7 0 0)]> ∅) in
  let w := quietWorld fs home (bs "yes" ++ [nl]) in
  ∃ w', confirmAndAddKeys (bs "ssh-rsa AAA") (bs "bob") w = (Ok tt, w')
    ∧ files w'
      = <[authorizedKeysOf home :=
            File (octal 6 4 4) (bs "k1 al" ++ nl :: bs "ssh-rsa AAA bob")]> fs.
Proof.
  intros home fs w.
  destruct (proj1 (confirmAndAddKeys_writes (bs "ssh-rsa AAA") (bs "bob") w home
                     eq_refl (λ _ _, eq_refl))
              (octal 6 4 4) (bs "k1 al") (octal 7 0 0)) as (w' & Hrun & Hfiles).
  - apply lookup_insert_eq.
  - unfold w, quietWorld, fs. cbn [files].
    rewrite lookup_insert_ne by (symmetry; apply sshDir_not_file).
    apply lookup_insert_eq.
  - vm_compute. reflexivity.
  - exists w'. split; [exact Hrun|]. exact Hfiles.
Defined.

(** *** No keys *)

(** C6: when the fetched blob is white space only (blank lines, or
    nothing at all), the run fails with the error that no public keys were
    found for the user, whatever the action, and the world is as before:
    no prompt was printed, no answer read and no file touched. *)
Theorem run_no_keys program action username w response keys :
  httpGet w (bs "https://github.com/" ++ username ++ bs ".keys") = Ok response →
  StatusCode response = 200%Z →
  Body response = Ok keys →
  whitespaceOnly keys →
  run [program; action; username] w
  = (Err (errorf (bs "no public keys found for user '" ++ username ++ bs "'")), w).
Proof.
  intros Hget Hstatus Hbody Hws. unfold run.
  erewrite bind_Ok.
  2: { unfold wrapped, fetchKeys. rewrite Hget, Hstatus, Hbody.
       rewrite bool_decide_eq_false_2 by (intros H; by apply H). reflexivity. }
  rewrite TrimSpace_whitespaceOnly by done. reflexivity.
Qed.

Lemma run_no_keys_witness :
  let w := mkWorld ∅ (λ _ _, None) (Ok ["home"; "alice"]%string)
             (λ _, Ok (mkResponse 200 (Ok (bs " " ++ [nl; x09; nl]))))
             (mkReader (bs "yes" ++ [nl]) errEOF) [] in
  run [bs "doorman"; bs "add"; bs "bob"] w
  = (Err (errorf (bs "no public keys found for user 'bob'")), w).
Proof.
  intros w.
  apply (run_no_keys (bs "doorman") (bs "add") (bs "bob") w
           (mkResponse 200 (Ok (bs " " ++ [nl; x09; nl]))) (bs " " ++ [nl; x09; nl]));
    try reflexivity.
  exists [[x20]; [nl]; [x09]; [nl]]. split; [|reflexivity].
  repeat constructor.
Defined.

(** *** The entry point *)

Lemma wrapped_Ok {A} msg (m : M A) w a w' :
  m w = (Ok a, w') → wrapped msg m w = (Ok a, w').
Proof. unfold wrapped. by intros ->. Qed.

Lemma wrapped_Err {A} msg (m : M A) w e w' :
  m w = (Err e, w') → wrapped msg m w = (Err (errWrap msg e), w').
Proof. unfold wrapped. by intros ->. Qed.

Lemma fetchKeys_fetched w username keys :
  fetched w username keys →
  fetchKeys (bs "https://github.com/" ++ username ++ bs ".keys") w = (Ok keys, w).
Proof.
  intros (response & Hget & Hstatus & Hbody). unfold fetchKeys.
  rewrite Hget, Hstatus, Hbody.
  by rewrite bool_decide_eq_false_2 by (intros H; by apply H).
Qed.

Lemma not_blank keys :
  ¬ whitespaceOnly keys → bool_decide (length (TrimSpace keys) = 0) = false.
Proof.
  intros Hkeys. apply bool_decide_eq_false_2. intros Hlen. apply Hkeys.
  apply TrimSpace_empty_whitespaceOnly. by destruct (TrimSpace keys).
Qed.

(** X7: with fewer or more than two arguments after the program name, [run]
    prints the two usage lines and fails with "invalid arguments"; it
    fetches nothing, asks nothing and touches no file. *)
Theorem run_usage args w :
  length args ≠ 3 →
  run args w
  = (Err (errorf (bs "invalid arguments")),
     setStdout (stdout w ++ (bs "Usage: doorman add <username>" ++ [nl])
                         ++ bs "       doorman remove <username>" ++ [nl]) w).
Proof.
  intros Hlen. destruct args as [|a [|b [|c [|d rest]]]]; simpl in Hlen; try lia;
    unfold run; run; by rewrite <- app_assoc.
Qed.

Lemma run_usage_witness :
  fst (run [bs "doorman"; bs "add"] (quietWorld ∅ [] []))
  = Err (errorf (bs "invalid arguments")).
Proof.
  rewrite (run_usage [bs "doorman"; bs "add"] (quietWorld ∅ [] [])); [reflexivity|].
  simpl. lia.
Defined.

(** X8: whatever the action, even one that is neither add nor remove, a failed
    fetch makes [run] fail with the cause wrapped as "error fetching keys",
    before anything is printed, asked or written. *)
Theorem run_fetch_failure program action username w cause :
  fetchFails w username cause →
  run [program; action; username] w
  = (Err (errWrap (bs "error fetching keys") cause), w).
Proof.
  intros Hfail. unfold run. erewrite bind_Err; [done|].
  apply wrapped_Err. unfold fetchKeys.
  destruct Hfail as [Hget | [(response & Hget & Hstatus & ->) | (response & Hget & Hstatus & Hbody)]];
    rewrite Hget; [done| |].
  - by rewrite bool_decide_eq_true_2.
  - rewrite Hstatus, Hbody. by rewrite bool_decide_eq_false_2 by (intros H; by apply H).
Qed.

Lemma run_fetch_failure_witness :
  let w := mkWorld ∅ (λ _ _, None) (Ok []) (λ _, Ok (mkResponse 404 (Ok (bs "Not Found"))))
             (mkReader [] errEOF) [] in
  run [bs "doorman"; bs "frobnicate"; bs "bob"] w
  = (Err (errWrap (bs "error fetching keys") (errHTTPStatus 404)), w).
Proof.
  intros w. apply (run_fetch_failure _ _ _ w (errHTTPStatus 404)).
  right. left. exists (mkResponse 404 (Ok (bs "Not Found"))).
  split; [reflexivity|]. split; [discriminate | reflexivity].
Defined.

(** X9: an action that is neither add nor remove is rejected only after the keys
    were fetched and found not blank; then [run] fails with the message that
    names the action, and nothing is printed, asked or written. *)
Theorem run_invalid_action program action username w keys :
  fetched w username keys → ¬ whitespaceOnly keys →
  action ≠ bs "add" → action ≠ bs "remove" →
  run [program; action; username] w
  = (Err (errorf (bs "invalid action '" ++ action
                  ++ bs "'. Please use 'add' or 'remove'")), w).
Proof.
  intros Hfetch Hkeys Hadd Hremove. unfold run.
  erewrite bind_Ok by by apply wrapped_Ok, fetchKeys_fetched.
  rewrite not_blank by done.
  by rewrite !bool_decide_eq_false_2 by done.
Qed.

Lemma run_invalid_action_witness :
  let w := mkWorld ∅ (λ _ _, None) (Ok []) (λ _, Ok (mkResponse 200 (Ok (bs "ssh-rsa AAA"))))
             (mkReader [] errEOF) [] in
  run [bs "doorman"; bs "list"; bs "bob"] w
  = (Err (errorf (bs "invalid action 'list'. Please use 'add' or 'remove'")), w).
Proof.
  intros w. apply (run_invalid_action _ (bs "list") _ w (bs "ssh-rsa AAA")).
  - exists (mkResponse 200 (Ok (bs "ssh-rsa AAA"))). by repeat split.
  - intros Hws%TrimSpace_whitespaceOnly. vm_compute in Hws. discriminate Hws.
  - discriminate.
  - discriminate.
Defined.

(** X10: when the operator's home directory cannot be resolved, add and remove
    fail with the cause wrapped in the message of the action, and the world
    is as before: nothing printed, asked or written. *)
Theorem run_user_lookup_failure program username w keys cause :
  fetched w username keys → ¬ whitespaceOnly keys →
  userCurrent w = Err cause →
  run [program; bs "add"; username] w
  = (Err (errWrap (bs "error adding keys to authorized_keys") cause), w)
  ∧ run [program; bs "remove"; username] w
    = (Err (errWrap (bs "error removing keys from authorized_keys") cause), w).
Proof.
  intros Hfetch Hkeys Huser.
  assert (getAuthorizedKeysPath w = (Err cause, w)) as Hpath
    by (unfold getAuthorizedKeysPath; by rewrite Huser).
  split; unfold run;
    (erewrite bind_Ok by by apply wrapped_Ok, fetchKeys_fetched);
    rewrite not_blank by done; cbn [bool_decide decide_rel].
  - rewrite bool_decide_eq_true_2 by done.
    erewrite bind_Err; [done|]. apply wrapped_Err.
    unfold confirmAndAddKeys. by erewrite bind_Err.
  - rewrite bool_decide_eq_false_2 by discriminate.
    rewrite bool_decide_eq_true_2 by done.
    erewrite bind_Err; [done|]. apply wrapped_Err.
    unfold confirmAndRemoveKeys. by erewrite bind_Err.
Qed.

Lemma run_user_lookup_failure_witness :
  let w := mkWorld ∅ (λ _ _, None) (Err (errExternal (bs "user: unknown userid 1000")))
             (λ _, Ok (mkResponse 200 (Ok (bs "ssh-rsa AAA"))))
             (mkReader (bs "yes" ++ [nl]) errEOF) [] in
  run [bs "doorman"; bs "add"; bs "bob"] w
  = (Err (errWrap (bs "error adding keys to authorized_keys")
            (errExternal (bs "user: unknown userid 1000"))), w).
Proof.
  intros w.
  refine (proj1 (run_user_lookup_failure (bs "doorman") (bs "bob") w (bs "ssh-rsa AAA")
                   (errExternal (bs "user: unknown userid 1000")) _ _ _)).
  - exists (mkResponse 200 (Ok (bs "ssh-rsa AAA"))). by repeat split.
  - intros Hws%TrimSpace_whitespaceOnly. vm_compute in Hws. discriminate Hws.
  - reflexivity.
Defined.

(** *** Prompts and the input stream *)

(** X11: a prompt prints its text and consumes exactly one line of the input,
    newline included, leaving the rest for the next prompt; the answer is
    decided by the line without its newline. *)
Theorem promptConfirmation_reads_one_line prompt w line rest :
  nl ∉ line →
  pending (stdinReader w) = line ++ nl :: rest →
  promptConfirmation prompt w
  = (Ok (bool_decide (TrimSpace line ∈ yesWords)),
     setStdin (mkReader rest (closing (stdinReader w)))
       (setStdout (stdout w ++ prompt) w)).
Proof.
  intros Hline Hpending. rewrite promptConfirmation_run.
  unfold readAnswer, ReadString. rewrite Hpending, cutLine_line by done.
  cbn [fst snd]. rewrite yes_decide, TrimSpace_rune_r; [done|].
  apply (bool_decide_unpack _). by vm_compute.
Qed.

Lemma promptConfirmation_reads_one_line_witness :
  let w := quietWorld ∅ [] (bs "  YES " ++ nl :: bs "no" ++ [nl]) in
  promptConfirmation (bs "? ") w
  = (Ok (bool_decide (TrimSpace (bs "  YES ") ∈ yesWords)),
     setStdin (mkReader (bs "no" ++ [nl]) errEOF) (setStdout (bs "? ") w)).
Proof.
  intros w.
  apply (promptConfirmation_reads_one_line (bs "? ") w (bs "  YES ") (bs "no" ++ [nl])).
  - apply (bool_decide_unpack _). by vm_compute.
  - reflexivity.
Defined.




(** *** No-op outcomes reported as success *)

Lemma declined_add_run keys username w :
  declinesAdd w →
  ∃ w', confirmAndAddKeys keys username w = (Ok tt, w')
        ∧ files w' = files w ∧ aborted w'.
Proof.
  intros (home & Hhome & Hd). unfold confirmAndAddKeys, aborted.
  erewrite bind_Ok by by apply getAuthorizedKeysPath_Ok.
  erewrite bind_Ok by apply attempt_run.
  rewrite Stat_world.
  destruct (notExist (fst (os.Stat (authorizedKeysOf home) w))); cbn [negb].
  - destruct Hd as [Hno | [Hyes Hno]].
    + run. rewrite promptConfirmation_run, Hno. cbn.
      eexists. split; [reflexivity|]. split; [reflexivity|].
      eexists. reflexivity.
    + run. rewrite promptConfirmation_run, Hyes. cbn.
      rewrite promptConfirmation_run. cbn. rewrite Hno. cbn.
      eexists. split; [reflexivity|]. split; [reflexivity|].
      eexists. reflexivity.
  - run. rewrite promptConfirmation_run. cbn. rewrite Hd. cbn.
    eexists. split; [reflexivity|]. split; [reflexivity|].
    eexists. reflexivity.
Qed.

Lemma declined_remove_run keys username w :
  declinesRemove w →
  ∃ w', confirmAndRemoveKeys keys username w = (Ok tt, w')
        ∧ files w' = files w ∧ aborted w'.
Proof.
  intros (home & Hhome & Hthere & Hno). unfold confirmAndRemoveKeys, aborted.
  erewrite bind_Ok by by apply getAuthorizedKeysPath_Ok.
  erewrite bind_Ok by apply attempt_run.
  rewrite Stat_world, Hthere.
  run. rewrite promptConfirmation_run. cbn. rewrite Hno. cbn.
  eexists. split; [reflexivity|]. split; [reflexivity|].
  eexists. reflexivity.
Qed.

(** X13: [run] prints the success line of the action whenever the protocol
    returns without an error, also when nothing was done: after a declined
    prompt the output ends with "Operation aborted." followed by "Keys
    added successfully!" (or "Keys removed successfully!"), and [run]
    returns without an error, the files being as before. *)
Theorem run_reports_success_after_decline program username w keys :
  fetched w username keys → ¬ whitespaceOnly keys →
  (declinesAdd w →
   ∃ w', run [program; bs "add"; username] w = (Ok tt, w')
     ∧ files w' = files w
     ∧ (bs "Operation aborted." ++ nl :: bs "Keys added successfully!" ++ [nl])
         `suffix_of` stdout w')
  ∧ (declinesRemove w →
     ∃ w', run [program; bs "remove"; username] w = (Ok tt, w')
       ∧ files w' = files w
       ∧ (bs "Operation aborted." ++ nl :: bs "Keys removed successfully!" ++ [nl])
           `suffix_of` stdout w').
Proof.
  intros Hfetch Hkeys.
  split; intros Hdecline; unfold run;
    (erewrite bind_Ok by by apply wrapped_Ok, fetchKeys_fetched);
    rewrite not_blank by done.
  - rewrite bool_decide_eq_true_2 by done.
    destruct (declined_add_run keys username w Hdecline) as (w' & Hrun & Hfiles & [k Hout]).
    erewrite bind_Ok by by apply wrapped_Ok.
    run. eexists. split; [reflexivity|]. split; [exact Hfiles|].
    cbn. exists k. rewrite Hout. by rewrite <- !app_assoc.
  - rewrite bool_decide_eq_false_2 by discriminate.
    rewrite bool_decide_eq_true_2 by done.
    destruct (declined_remove_run keys username w Hdecline) as (w' & Hrun & Hfiles & [k Hout]).
    erewrite bind_Ok by by apply wrapped_Ok.
    run. eexists. split; [reflexivity|]. split; [exact Hfiles|].
    cbn. exists k. rewrite Hout. by rewrite <- !app_assoc.
Qed.

Lemma run_reports_success_after_decline_witness :
  let w := mkWorld ∅ (λ _ _, None) (Ok ["home"; "alice"]%string)
             (λ _, Ok (mkResponse 200 (Ok (bs "ssh-rsa AAA"))))
             (mkReader (bs "no" ++ [nl]) errEOF) [] in
  ∃ w', run [bs "doorman"; bs "add"; bs "bob"] w = (Ok tt, w')
    ∧ files w' = files w
    ∧ (bs "Operation aborted." ++ nl :: bs "Keys added successfully!" ++ [nl])
        `suffix_of` stdout w'.
Proof.
  intros w.
  refine (proj1 (run_reports_success_after_decline (bs "doorman") (bs "bob") w
                   (bs "ssh-rsa AAA") _ _) _).
  - exists (mkResponse 200 (Ok (bs "ssh-rsa AAA"))). by repeat split.
  - intros Hws%TrimSpace_whitespaceOnly. vm_compute in Hws. discriminate Hws.
  - exists ["home"; "alice"]%string. split; [reflexivity|].
    left. vm_compute. reflexivity.
Defined.

(** *** Confirmed removals *)

(** X14: with no failure imposed by the environment, a confirmed remove rewrites
    the credential file with the filtered content; the file keeps its mode
    (the mode passed to [os.WriteFile] serves only when a file is created)
    and no other file changes. *)
Theorem confirmAndRemoveKeys_rewrites keys username w home mode content :
  userCurrent w = Ok home →
  (∀ call q, faults w call q = None) →
  files w !! authorizedKeysOf home = Some (File mode content) →
  fst (readAnswer (stdinReader w)) = Ok true →
  ∃ w', confirmAndRemoveKeys keys username w = (Ok tt, w')
    ∧ files w'
      = <[authorizedKeysOf home := File mode (removeKeysByUsername content username)]>
          (files w).
Proof.
  intros Hhome Hfaults Hfile Hyes. unfold confirmAndRemoveKeys.
  erewrite bind_Ok by by apply getAuthorizedKeysPath_Ok.
  erewrite bind_Ok by apply attempt_run.
  rewrite Stat_world, (Stat_present _ _ _ Hfile (Hfaults _ _)). cbn [notExist].
  run. rewrite promptConfirmation_run. cbn. rewrite Hyes. cbn.
  unfold os.ReadFile, os.faulty. cbn. rewrite !Hfaults, Hfile.
  unfold os.WriteFile, os.faulty. run. rewrite Hfaults, Hfile.
  unfold os.FileWrite, os.faulty. cbn. rewrite Hfaults, lookup_insert_eq. cbn.
  rewrite insert_insert_eq. eexists. split; reflexivity.
Qed.

Lemma confirmAndRemoveKeys_rewrites_witness :
  let home := ["home"; "alice"]%string in
  let fs : gmap path node :=
    <[authorizedKeysOf home := File (octal 6 4 4) (bs "k1 bob" ++ nl :: bs "k2 al")]> ∅ in
  let w := quietWorld fs home (bs "yes" ++ [nl]) in
  ∃ w', confirmAndRemoveKeys (bs "k1") (bs "bob") w = (Ok tt, w')
    ∧ files w' = <[authorizedKeysOf home := File (octal 6 4 4) (bs "k2 al")]> fs.
Proof.
  intros home fs w.
  destruct (confirmAndRemoveKeys_rewrites (bs "k1") (bs "bob") w home
              (octal 6 4 4) (bs "k1 bob" ++ nl :: bs "k2 al")
              eq_refl (λ _ _, eq_refl)) as (w' & Hrun & Hfiles).
  - apply lookup_insert_eq.
  - vm_compute. reflexivity.
  - exists w'. split; [exact Hrun | exact Hfiles].
Defined.

(** *** The directory *)

Lemma setFiles_same w : setFiles (files w) w = w.
Proof. by destruct w. Qed.

(** What [ensureSSHDir] does to the files: nothing, or the creation of the
    missing directory. *)
Lemma ensureSSHDir_frame w home :
  userCurrent w = Ok home →
  ∃ fs', snd (ensureSSHDir w) = setFiles fs' w
    ∧ (fs' = files w
       ∨ (files w !! sshDirOf home = None
          ∧ fst (ensureSSHDir w) = Ok tt
          ∧ fs' = <[sshDirOf home := Dir (octal 7 0 0)]> (files w))).
Proof.
  intros Hhome. unfold ensureSSHDir. rewrite Hhome. run. fold (sshDirOf home).
  unfold attempt, os.Stat, os.faulty.
  destruct (faults w SysStat (sshDirOf home)) as [e|].
  - destruct e; cbn; try (exists (files w); split; [by rewrite setFiles_same | by left]).
    unfold os.Mkdir, os.faulty.
    destruct (faults w SysMkdir (sshDirOf home));
      [exists (files w); split; [by rewrite setFiles_same | by left]|].
    destruct (files w !! sshDirOf home) eqn:Hdir;
      [exists (files w); split; [by rewrite setFiles_same | by left]|].
    destruct (os.parentDir (files w) (sshDirOf home));
      [|exists (files w); split; [by rewrite setFiles_same | by left]].
    eexists. split; [reflexivity|]. by right.
  - destruct (files w !! sshDirOf home) eqn:Hdir; cbn;
      [exists (files w); split; [by rewrite setFiles_same | by left]|].
    unfold os.Mkdir, os.faulty.
    destruct (faults w SysMkdir (sshDirOf home));
      [exists (files w); split; [by rewrite setFiles_same | by left]|].
    rewrite Hdir.
    destruct (os.parentDir (files w) (sshDirOf home));
      [|exists (files w); split; [by rewrite setFiles_same | by left]].
    eexists. split; [reflexivity|]. by right.
Qed.



(** *** Add only appends *)

(** X16: whatever the operator answers and whatever calls the environment makes
    fail, add leaves an existing credential file in place with its mode and
    its old content as a prefix of the new one: it never truncates or
    rewrites what was there.  (The stat call must not report an existing
    file as missing.) *)
Theorem confirmAndAddKeys_only_appends keys username w home mode content :
  userCurrent w = Ok home →
  files w !! authorizedKeysOf home = Some (File mode content) →
  faults w SysStat (authorizedKeysOf home) ≠ Some ENOENT →
  ∃ more,
    files (snd (confirmAndAddKeys keys username w)) !! authorizedKeysOf home
    = Some (File mode (content ++ more)).
Proof.
  intros Hhome Hfile Hstat.
  assert (∀ fs : gmap path node, fs !! authorizedKeysOf home = Some (File mode content) →
                ∃ more, fs !! authorizedKeysOf home = Some (File mode (content ++ more)))
    as Hsame by (intros fs Hfs; exists []; by rewrite app_nil_r).
  unfold confirmAndAddKeys.
  erewrite bind_Ok by by apply getAuthorizedKeysPath_Ok.
  erewrite bind_Ok by apply attempt_run.
  rewrite Stat_world.
  assert (notExist (fst (os.Stat (authorizedKeysOf home) w)) = false) as ->.
  { unfold os.Stat, os.faulty.
    destruct (faults w SysStat (authorizedKeysOf home)) as [[]|]; try done.
    by rewrite Hfile. }
  cbn [negb]. run. rewrite promptConfirmation_run. cbn.
  destruct (fst (readAnswer (stdinReader w))) as [[|]|e]; cbn; [|by apply Hsame..].
  set (w2 := setStdin _ _).
  destruct (ensureSSHDir_frame w2 home Hhome) as (fs' & Hw3 & Hfs').
  assert (fs' !! authorizedKeysOf home = Some (File mode content)) as Hfile'.
  { destruct Hfs' as [-> | (_ & _ & ->)]; [done|].
    rewrite lookup_insert_ne; [done | apply sshDir_not_file]. }
  destruct (ensureSSHDir w2) as [res w3]. cbn [snd] in Hw3. subst w3.
  destruct res as [[]|e]; [|by apply Hsame].
  unfold os.OpenFileAppend, os.faulty. cbn.
  destruct (faults w SysOpen (authorizedKeysOf home)); cbn; [by apply Hsame|].
  rewrite Hfile'.
  unfold os.FileSize, os.faulty. cbn.
  destruct (faults w SysFstat (authorizedKeysOf home)); cbn; [by apply Hsame|].
  rewrite Hfile'.
  unfold os.FileWrite, os.faulty. cbn.
  case_bool_decide; cbn.
  - destruct (faults w SysWrite (authorizedKeysOf home)) eqn:Hwrite; cbn;
      [by apply Hsame|].
    rewrite Hfile'. cbn. rewrite Hwrite, lookup_insert_eq. cbn.
    rewrite lookup_insert_eq.
    eexists. rewrite <- app_assoc. reflexivity.
  - destruct (faults w SysWrite (authorizedKeysOf home)); cbn; [by apply Hsame|].
    rewrite Hfile'. cbn. rewrite lookup_insert_eq. eexists. reflexivity.
Qed.

Lemma confirmAndAddKeys_only_appends_witness :
  let home := ["home"; "alice"]%string in
  let fs : gmap path node :=
    <[authorizedKeysOf home := File (octal 6 4 4) (bs "k1 al")]> ∅ in
  let w := mkWorld fs (λ call _, if call is SysWrite then Some ENOSPC else None)
             (Ok home) (λ _, Err errEOF) (mkReader (bs "yes" ++ [nl]) errEOF) [] in
  ∃ more,
    files (snd (confirmAndAddKeys (bs "ssh-rsa AAA") (bs "bob") w)) !! authorizedKeysOf home
    = Some (File (octal 6 4 4) (bs "k1 al" ++ more)).
Proof.
  intros home fs w.
  apply (confirmAndAddKeys_only_appends (bs "ssh-rsa AAA") (bs "bob") w home).
  - reflexivity.
  - apply lookup_insert_eq.
  - discriminate.
Defined.

(** *** Add, then remove *)

Lemma removeKeysByUsername_restores content keys username :
  nl ∉ username → ¬ whitespaceOnly keys →
  Forall (λ line, ¬ (bs " " ++ username) `suffix_of` line) (Split content) →
  removeKeysByUsername
    (if decide (content = []) then appendUsernameToKeys keys username
     else content ++ nl :: appendUsernameToKeys keys username) username
  = content.
Proof.
  intros Hu Hkeys Hclean.
  assert (filter (λ line, ¬ (bs " " ++ username) `suffix_of` line)
            (Split (appendUsernameToKeys keys username)) = []) as Hnone.
  { apply filter_none.
    pose proof (appendUsernameToKeys_suffixes keys username Hu Hkeys) as Hall.
    eapply Forall_impl; [exact Hall|]. simpl. tauto. }
  rewrite removeKeysByUsername_filter. case_decide as Hcontent.
  - by rewrite Hnone, Hcontent.
  - rewrite Split_app, filter_app, Hnone, app_nil_r.
    rewrite filter_fixed by done. apply Join_Split.
Qed.

(** X17: with no failure imposed by the environment, a confirmed add of an
    identity's keys to an existing credential file followed by a confirmed
    remove of the same identity leaves every file as it was, when no line
    of the file carried the identity's tag before (and the identity has no
    newline in it). *)
Theorem add_then_remove_restores keys username w home mode content dmode :
  nl ∉ username → ¬ whitespaceOnly keys →
  userCurrent w = Ok home →
  (∀ call q, faults w call q = None) →
  files w !! authorizedKeysOf home = Some (File mode content) →
  files w !! sshDirOf home = Some (Dir dmode) →
  Forall (λ line, ¬ (bs " " ++ username) `suffix_of` line) (Split content) →
  fst (readAnswer (stdinReader w)) = Ok true →
  fst (readAnswer (snd (readAnswer (stdinReader w)))) = Ok true →
  ∃ w1 w2,
    confirmAndAddKeys keys username w = (Ok tt, w1)
    ∧ confirmAndRemoveKeys keys username w1 = (Ok tt, w2)
    ∧ files w2 = files w.
Proof.
  intros Hu Hkeys Hhome Hfaults Hfile Hdir Hclean Hyes1 Hyes2.
  pose proof (removeKeysByUsername_restores content keys username Hu Hkeys Hclean)
    as Hrestore.
  (* the add *)
  unfold confirmAndAddKeys.
  erewrite bind_Ok by by apply getAuthorizedKeysPath_Ok.
  erewrite bind_Ok by apply attempt_run.
  rewrite Stat_world, (Stat_present _ _ _ Hfile (Hfaults _ _)). cbn [notExist negb].
  run. rewrite promptConfirmation_run. cbn. rewrite Hyes1. cbn.
  unfold ensureSSHDir. cbn. rewrite Hhome. run.
  unfold attempt, os.Stat at 1, os.faulty. cbn. rewrite Hfaults.
  fold (sshDirOf home). rewrite Hdir.
  unfold os.OpenFileAppend, os.faulty. cbn. rewrite Hfaults, Hfile.
  unfold os.FileSize, os.faulty. cbn. rewrite Hfaults, Hfile.
  assert (∀ new w1,
    files w1 = <[authorizedKeysOf home := File mode new]> (files w) →
    userCurrent w1 = Ok home → faults w1 = faults w →
    stdinReader w1 = snd (readAnswer (stdinReader w)) →
    removeKeysByUsername new username = content →
    ∃ w2, confirmAndRemoveKeys keys username w1 = (Ok tt, w2) ∧ files w2 = files w)
    as Hremove.
  { intros new w1 Hfiles1 Hhome1 Hfaults1 Hstdin1 Hnew.
    assert (files w1 !! authorizedKeysOf home = Some (File mode new)) as Hfile1
      by (rewrite Hfiles1; apply lookup_insert_eq).
    unfold confirmAndRemoveKeys.
    erewrite bind_Ok by by apply getAuthorizedKeysPath_Ok.
    erewrite bind_Ok by apply attempt_run.
    rewrite Stat_world, (Stat_present _ _ _ Hfile1) by (by rewrite Hfaults1).
    cbn [notExist].
    run. rewrite promptConfirmation_run. cbn. rewrite Hstdin1, Hyes2. cbn.
    unfold os.ReadFile, os.faulty. cbn. rewrite Hfaults1, !Hfaults, Hfile1.
    unfold os.WriteFile, os.faulty. run. rewrite Hfaults1, Hfaults, Hfile1.
    unfold os.FileWrite, os.faulty. cbn. rewrite Hfaults1, Hfaults, lookup_insert_eq. cbn.
    eexists. split; [reflexivity|]. cbn.
    rewrite insert_insert_eq, Hfiles1, insert_insert_eq, Hnew.
    by apply insert_id. }
  destruct content as [|c content]; cbn [length].
  - rewrite bool_decide_eq_false_2 by lia.
    rewrite decide_True in Hrestore by done.
    unfold os.FileWrite, os.faulty. cbn. rewrite Hfaults, Hfile.
    match goal with
    | |- ∃ w1 w2, (_, ?W) = _ ∧ _ =>
        destruct (Hremove (appendUsernameToKeys keys username) W)
          as (w2 & Hrun2 & Hfiles2);
        [reflexivity | exact Hhome | reflexivity | reflexivity | exact Hrestore |];
        exists W, w2
    end.
    split; [reflexivity|]. split; [exact Hrun2 | exact Hfiles2].
  - rewrite bool_decide_eq_true_2 by lia.
    rewrite decide_False in Hrestore by done.
    unfold os.FileWrite, os.faulty. cbn. rewrite Hfaults, Hfile. cbn.
    rewrite Hfaults, lookup_insert_eq. cbn. rewrite insert_insert_eq.
    match goal with
    | |- ∃ w1 w2, (_, ?W) = _ ∧ _ =>
        destruct (Hremove ((c :: content) ++ nl :: appendUsernameToKeys keys username) W)
          as (w2 & Hrun2 & Hfiles2);
        [cbn; by rewrite <- app_assoc | exact Hhome | reflexivity | reflexivity
        | exact Hrestore |];
        exists W, w2
    end.
    split; [reflexivity|]. split; [exact Hrun2 | exact Hfiles2].
Qed.

Lemma add_then_remove_restores_witness :
  let home := ["home"; "alice"]%string in
  let fs : gmap path node :=
    <[authorizedKeysOf home := File (octal 6 4 4) (bs "k1 al")]>
      (<[sshDirOf home := Dir (octal 7 0 0)]> ∅) in
  let w := quietWorld fs home (bs "yes" ++ nl :: bs "yes" ++ [nl]) in
  ∃ w1 w2,
    confirmAndAddKeys (bs "ssh-rsa AAA") (bs "bob") w = (Ok tt, w1)
    ∧ confirmAndRemoveKeys (bs "ssh-rsa AAA") (bs "bob") w1 = (Ok tt, w2)
    ∧ files w2 = files w.
Proof.
  intros home fs w.
  apply (add_then_remove_restores (bs "ssh-rsa AAA") (bs "bob") w home
           (octal 6 4 4) (bs "k1 al") (octal 7 0 0)).
  - apply (bool_decide_unpack _). by vm_compute.
  - intros Hws%TrimSpace_whitespaceOnly. vm_compute in Hws. discriminate Hws.
  - reflexivity.
  - reflexivity.
  - apply lookup_insert_eq.
  - unfold w, quietWorld, fs. cbn [files].
    rewrite lookup_insert_ne by (symmetry; apply sshDir_not_file).
    apply lookup_insert_eq.
  - apply (bool_decide_unpack _). by vm_compute.
  - vm_compute. reflexivity.
  - vm_compute. reflexivity.
Defined.

(** *** No other file *)

(** X18: whatever the operator answers and whatever calls the environment makes
    fail, add and remove change no entry of the file system other than the
    credential file and, for add, its directory [.ssh]. *)
Theorem protocols_touch_no_other_file keys username w home q :
  userCurrent w = Ok home →
  q ≠ authorizedKeysOf home → q ≠ sshDirOf home →
  files (snd (confirmAndAddKeys keys username w)) !! q = files w !! q
  ∧ files (snd (confirmAndRemoveKeys keys username w)) !! q = files w !! q.
Proof.
  intros Hhome Hfile Hdir. split.
  - unfold confirmAndAddKeys.
    erewrite bind_Ok by by apply getAuthorizedKeysPath_Ok.
    erewrite bind_Ok by apply attempt_run.
    rewrite Stat_world.
    assert (∀ (fileExists : bool) w2,
      files w2 !! q = files w !! q → userCurrent w2 = Ok home →
      files (snd ((ensureSSHDir ;;
                   if fileExists then
                     file ← os.OpenFileAppend (authorizedKeysOf home);
                     size ← os.FileSize file;
                     (if bool_decide (0 < size) then os.FileWrite file [nl] else mret tt) ;;
                     os.FileWrite file (appendUsernameToKeys keys username)
                   else
                     os.WriteFile (authorizedKeysOf home)
                       (appendUsernameToKeys keys username) (octal 6 0 0)) w2)) !! q
      = files w !! q) as Hwrite.
    { intros fileExists w2 Hw2 Hhome2. run.
      destruct (ensureSSHDir_frame w2 home Hhome2) as (fs' & Hw3 & Hfs').
      assert (fs' !! q = files w !! q) as Hq.
      { destruct Hfs' as [-> | (_ & _ & ->)]; [done|]. by rewrite lookup_insert_ne. }
      destruct (ensureSSHDir w2) as [res w3]. cbn [snd] in Hw3. subst w3.
      destruct res as [[]|e]; [|done].
      unfold os.OpenFileAppend, os.FileSize, os.WriteFile, os.FileWrite, os.faulty.
      destruct fileExists; run;
        repeat (first [progress cbn | progress simplify_eq | case_match]);
        by rewrite ?lookup_insert_ne by done. }
    destruct (notExist (fst (os.Stat (authorizedKeysOf home) w))); cbn [negb]; run;
      rewrite promptConfirmation_run; cbn;
      destruct (fst (readAnswer (stdinReader w))) as [[|]|e]; cbn; try done.
    + rewrite promptConfirmation_run. cbn.
      destruct (fst (readAnswer (snd (readAnswer (stdinReader w))))) as [[|]|e];
        cbn; try done.
      by apply (Hwrite false).
    + by apply (Hwrite true).
  - unfold confirmAndRemoveKeys.
    erewrite bind_Ok by by apply getAuthorizedKeysPath_Ok.
    erewrite bind_Ok by apply attempt_run.
    rewrite Stat_world.
    destruct (notExist (fst (os.Stat (authorizedKeysOf home) w))); [done|].
    run. rewrite promptConfirmation_run. cbn.
    destruct (fst (readAnswer (stdinReader w))) as [[|]|e]; cbn; try done.
    unfold os.ReadFile, os.WriteFile, os.FileWrite, os.faulty. run.
    repeat (first [progress cbn | progress simplify_eq | case_match]);
      by rewrite ?lookup_insert_ne by done.
Qed.

Lemma protocols_touch_no_other_file_witness :
  let home := ["home"; "alice"]%string in
  let w := quietWorld {[ home ++ ["notes"]%string := File (octal 6 4 4) (bs "x") ]} home
             (bs "yes" ++ nl :: bs "yes" ++ [nl]) in
  files (snd (confirmAndAddKeys (bs "ssh-rsa AAA") (bs "bob") w)) !! (home ++ ["notes"]%string)
  = files w !! (home ++ ["notes"]%string).
Proof.
  intros home w.
  refine (proj1 (protocols_touch_no_other_file (bs "ssh-rsa AAA") (bs "bob") w home
                   (home ++ ["notes"]%string) eq_refl _ _)); discriminate.
Defined.

(** *** Add, twice *)

Lemma added_to_existing_frame keys username w home mode content dmode :
  userCurrent w = Ok home →
  (∀ call q, faults w call q = None) →
  files w !! authorizedKeysOf home = Some (File mode content) →
  files w !! sshDirOf home = Some (Dir dmode) →
  fst (readAnswer (stdinReader w)) = Ok true →
  ∃ w', confirmAndAddKeys keys username w = (Ok tt, w')
    ∧ files w'
      = <[authorizedKeysOf home :=
            File mode (if decide (content = []) then appendUsernameToKeys keys username
                       else content ++ nl :: appendUsernameToKeys keys username)]>
          (files w)
    ∧ userCurrent w' = userCurrent w
    ∧ faults w' = faults w
    ∧ stdinReader w' = snd (readAnswer (stdinReader w)).
Proof.
  intros Hhome Hfaults Hfile Hdir Hyes. unfold confirmAndAddKeys.
  erewrite bind_Ok by by apply getAuthorizedKeysPath_Ok.
  erewrite bind_Ok by apply attempt_run.
  rewrite Stat_world, (Stat_present _ _ _ Hfile (Hfaults _ _)). cbn [notExist negb].
  run. rewrite promptConfirmation_run. cbn. rewrite Hyes. cbn.
  unfold ensureSSHDir. cbn. rewrite Hhome. run.
  unfold attempt, os.Stat, os.faulty. cbn. rewrite Hfaults.
  fold (sshDirOf home). rewrite Hdir.
  unfold os.OpenFileAppend, os.faulty. cbn. rewrite Hfaults, Hfile.
  unfold os.FileSize, os.faulty. cbn. rewrite Hfaults, Hfile.
  destruct content as [|c content]; cbn [length].
  - rewrite bool_decide_eq_false_2 by lia. rewrite decide_True by done.
    unfold os.FileWrite, os.faulty. cbn. rewrite Hfaults, Hfile.
    eexists. repeat split; try reflexivity. exact Hhome.
  - rewrite bool_decide_eq_true_2 by lia. rewrite decide_False by done.
    unfold os.FileWrite, os.faulty. cbn. rewrite Hfaults, Hfile. cbn.
    rewrite Hfaults, lookup_insert_eq. cbn. rewrite insert_insert_eq.
    eexists. split; [reflexivity|].
    split; [|repeat split; try reflexivity; exact Hhome].
    cbn. by rewrite <- app_assoc.
Qed.

(** X19: add is not idempotent: with no failure imposed by the environment, two
    confirmed adds of the same keys leave the identity's block twice in the
    credential file, one after the other. *)
Theorem add_twice_duplicates keys username w home mode content dmode :
  ¬ whitespaceOnly keys →
  userCurrent w = Ok home →
  (∀ call q, faults w call q = None) →
  files w !! authorizedKeysOf home = Some (File mode content) →
  files w !! sshDirOf home = Some (Dir dmode) →
  fst (readAnswer (stdinReader w)) = Ok true →
  fst (readAnswer (snd (readAnswer (stdinReader w)))) = Ok true →
  let block := appendUsernameToKeys keys username in
  ∃ w1 w2,
    confirmAndAddKeys keys username w = (Ok tt, w1)
    ∧ confirmAndAddKeys keys username w1 = (Ok tt, w2)
    ∧ files w2
      = <[authorizedKeysOf home :=
            File mode ((if decide (content = []) then block else content ++ nl :: block)
                       ++ nl :: block)]> (files w).
Proof.
  intros Hkeys Hhome Hfaults Hfile Hdir Hyes1 Hyes2 block.
  destruct (added_to_existing_frame keys username w home mode content dmode)
    as (w1 & Hrun1 & Hfiles1 & Huser1 & Hfaults1 & Hstdin1); try done.
  destruct (added_to_existing keys username w1 home mode
              (if decide (content = []) then block else content ++ nl :: block) dmode)
    as (w2 & Hrun2 & Hfiles2).
  - by rewrite Huser1.
  - intros call q. by rewrite Hfaults1.
  - rewrite Hfiles1. apply lookup_insert_eq.
  - rewrite Hfiles1, lookup_insert_ne; [done | symmetry; apply sshDir_not_file].
  - by rewrite Hstdin1.
  - exists w1, w2. split; [done|]. split; [done|].
    rewrite Hfiles2, Hfiles1, insert_insert_eq. f_equal. f_equal.
    rewrite decide_False; [done|].
    pose proof (appendUsernameToKeys_not_empty keys username Hkeys) as Hblock.
    destruct (decide (content = [])); [exact Hblock | by destruct content].
Qed.

Lemma add_twice_duplicates_witness :
  let home := ["home"; "alice"]%string in
  let fs : gmap path node :=
    <[authorizedKeysOf home := File (octal 6 4 4) (bs "k1 al")]>
      (<[sshDirOf home := Dir (octal 7 0 0)]> ∅) in
  let w := quietWorld fs home (bs "yes" ++ nl :: bs "yes" ++ [nl]) in
  ∃ w1 w2,
    confirmAndAddKeys (bs "k2") (bs "bob") w = (Ok tt, w1)
    ∧ confirmAndAddKeys (bs "k2") (bs "bob") w1 = (Ok tt, w2)
    ∧ files w2
      = <[authorizedKeysOf home :=
            File (octal 6 4 4) (bs "k1 al" ++ nl :: bs "k2 bob" ++ nl :: bs "k2 bob")]> fs.
Proof.
  intros home fs w.
  apply (add_twice_duplicates (bs "k2") (bs "bob") w home
           (octal 6 4 4) (bs "k1 al") (octal 7 0 0)).
  - intros Hws%TrimSpace_whitespaceOnly. vm_compute in Hws. discriminate Hws.
  - reflexivity.
  - reflexivity.
  - apply lookup_insert_eq.
  - unfold w, quietWorld, fs. cbn [files].
    rewrite lookup_insert_ne by (symmetry; apply sshDir_not_file).
    apply lookup_insert_eq.
  - vm_compute. reflexivity.
  - vm_compute. reflexivity.
Defined.

(** *** A confirmed add, from the entry point *)

(** X20: with the keys fetched and not blank, the file there and no failure
    imposed by the environment, [run] with the action add and a confirming
    operator appends the tagged block to the credential file, prints "Keys
    added successfully!" last and returns without an error. *)
Theorem run_add_confirmed program username w keys home mode content dmode :
  fetched w username keys → ¬ whitespaceOnly keys →
  userCurrent w = Ok home →
  (∀ call q, faults w call q = None) →
  files w !! authorizedKeysOf home = Some (File mode content) →
  files w !! sshDirOf home = Some (Dir dmode) →
  fst (readAnswer (stdinReader w)) = Ok true →
  ∃ w', run [program; bs "add"; username] w = (Ok tt, w')
    ∧ files w'
      = <[authorizedKeysOf home :=
            File mode (if decide (content = []) then appendUsernameToKeys keys username
                       else content ++ nl :: appendUsernameToKeys keys username)]>
          (files w)
    ∧ (bs "Keys added successfully!" ++ [nl]) `suffix_of` stdout w'.
Proof.
  intros Hfetch Hkeys Hhome Hfaults Hfile Hdir Hyes. unfold run.
  erewrite bind_Ok by by apply wrapped_Ok, fetchKeys_fetched.
  rewrite not_blank by done. rewrite bool_decide_eq_true_2 by done.
  destruct (added_to_existing keys username w home mode content dmode)
    as (w' & Hrun & Hfiles); try done.
  erewrite bind_Ok by by apply wrapped_Ok.
  run. eexists. split; [reflexivity|]. split; [exact Hfiles|].
  eexists. reflexivity.
Qed.

Lemma run_add_confirmed_witness :
  let home := ["home"; "alice"]%string in
  let fs : gmap path node :=
    <[authorizedKeysOf home := File (octal 6 4 4) (bs "k1 al")]>
      (<[sshDirOf home := Dir (octal 7 0 0)]> ∅) in
  let w := mkWorld fs (λ _ _, None) (Ok home)
             (λ _, Ok (mkResponse 200 (Ok (bs "k2" ++ [nl]))))
             (mkReader (bs "yes" ++ [nl]) errEOF) [] in
  ∃ w', run [bs "doorman"; bs "add"; bs "bob"] w = (Ok tt, w')
    ∧ files w'
      = <[authorizedKeysOf home := File (octal 6 4 4) (bs "k1 al" ++ nl :: bs "k2 bob")]> fs
    ∧ (bs "Keys added successfully!" ++ [nl]) `suffix_of` stdout w'.
Proof.
  intros home fs w.
  apply (run_add_confirmed (bs "doorman") (bs "bob") w (bs "k2" ++ [nl]) home
           (octal 6 4 4) (bs "k1 al") (octal 7 0 0)).
  - exists (mkResponse 200 (Ok (bs "k2" ++ [nl]))). by repeat split.
  - intros Hws%TrimSpace_whitespaceOnly. vm_compute in Hws. discriminate Hws.
  - reflexivity.
  - reflexivity.
  - apply lookup_insert_eq.
  - unfold w, fs. cbn [files].
    rewrite lookup_insert_ne by (symmetry; apply sshDir_not_file).
    apply lookup_insert_eq.
  - vm_compute. reflexivity.
Defined.

End protocols.
